(** * tesla-alert: the record extractor, filter and summarizer of check.js

    A shallow embedding of the pure part of [src/check.js] and of its earlier
    variant [src/unnamed/part_000]: numeric coercion, price and range
    extraction, detail-URL resolution, the filter and the summarizer, over a
    model of the JavaScript values that [JSON.parse] produces. *)

From Stdlib Require Import ZArith QArith Ascii String List Floats.SpecFloat Lia.
From stdpp Require Import gmap strings list fin_maps.

Set Default Proof Using "Type".
Set Warnings "-register-all".

(** ** The JavaScript values and built-ins the program uses *)

Module JS.

(** *** Strings

    A JavaScript string is a sequence of UTF-16 code units.  [js] turns an
    ASCII literal of the source into its code units. *)

Abbreviation jsstring := (list N).

Definition js (s : string) : jsstring :=
  map N_of_ascii (list_ascii_of_string s).

(** [\d], [\w] and [\s] of a regular expression without the [u] and [i]
    flags.  [\s] is WhiteSpace and LineTerminator of ECMAScript, which is also
    what [String.prototype.trim] and [parseFloat] skip. *)

Definition is_digit (c : N) : bool := (48 <=? c)%N && (c <=? 57)%N.

Definition is_word (c : N) : bool :=
  is_digit c || ((65 <=? c)%N && (c <=? 90)%N)
  || ((97 <=? c)%N && (c <=? 122)%N) || (c =? 95)%N.

Definition is_space (c : N) : bool :=
  ((9 <=? c)%N && (c <=? 13)%N) || (c =? 32)%N || (c =? 160)%N
  || (c =? 5760)%N || ((8192 <=? c)%N && (c <=? 8202)%N)
  || (c =? 8232)%N || (c =? 8233)%N || (c =? 8239)%N || (c =? 8287)%N
  || (c =? 12288)%N || (c =? 65279)%N.

Fixpoint starts_with (p s : jsstring) : bool :=
  match p, s with
  | [], _ => true
  | a :: p', b :: s' => (a =? b)%N && starts_with p' s'
  | _ :: _, [] => false
  end.

(** [s.trim()]: white space is dropped at both ends. *)

Fixpoint trim_start (s : jsstring) : jsstring :=
  match s with
  | c :: s' => if is_space c then trim_start s' else s
  | [] => []
  end.

Definition trim (s : jsstring) : jsstring :=
  rev (trim_start (rev (trim_start s))).

(** [a.join(sep)] on strings. *)
Fixpoint join (sep : jsstring) (l : list jsstring) : jsstring :=
  match l with
  | [] => []
  | [s] => s
  | s :: l' => s ++ sep ++ join sep l'
  end.

(** *** Numbers

    A JavaScript number is an IEEE 754 binary64 value: [spec_float] at
    precision 53 and maximal exponent 1024, with one NaN. *)

Abbreviation number := spec_float.

Definition NaN : number := S754_nan.
Definition Infinity : number := S754_infinity false.

(** The number an integer literal of the source denotes. *)
Definition num (z : Z) : number := binary_normalize 53 1024 z 0 false.

#[global] Arguments num : simpl never.

(** [Number.isFinite(n)] on a number. *)
Definition isFinite (n : number) : bool :=
  match n with
  | S754_zero _ | S754_finite _ _ _ => true
  | S754_infinity _ | S754_nan => false
  end.


(** [a < b] and [a > b] on numbers: false as soon as one side is NaN. *)
Definition lt (a b : number) : bool := SFltb a b.
Definition gt (a b : number) : bool := SFltb b a.

(** The binary64 value nearest to [m * 10^e10] for a natural number [m]
    (ties to even), signed by [neg].  The quotient of two integers is rounded
    once: [SFdiv] takes as many bits of it as the format holds and the
    position of the remainder. *)
Definition nearest_double (neg : bool) (m : Z) (e10 : Z) : number :=
  match m with
  | Zpos p =>
      match e10 with
      | Zneg k => SFdiv 53 1024 (S754_finite neg p 0)
                    (S754_finite false (Pos.pow 10 k) 0)
      | _ => binary_normalize 53 1024 (if neg then - (m * 10 ^ e10) else m * 10 ^ e10) 0 neg
      end
  | _ => S754_zero neg
  end.

(** [Math.round(x)]: the nearest integer, a tie going up; [-0] for a
    negative number that rounds to zero. *)
Definition Math_round (x : number) : number :=
  match x with
  | S754_finite s m (Zneg k) =>
      let twice := Z.shiftr (Z.shiftl (if s then Zneg m else Zpos m) 1) (Zpos k) in
      binary_normalize 53 1024 (Z.shiftr (twice + 1) 1) 0 s
  | _ => x
  end.

(** *** Values

    What [JSON.parse] can return, and [undefined].  An object holds its own
    properties; none of the property names this program reads is defined on
    [Object.prototype], [Array.prototype], [String.prototype] or
    [Number.prototype], so reading one of them from an array or from a
    primitive gives [undefined]. *)

Inductive value :=
| VUndefined
| VNull
| VBool (b : bool)
| VNum (n : number)
| VStr (s : jsstring)
| VArr (l : list value)
| VObj (m : gmap jsstring value).

(** [o[k]] for [o] other than [null] and [undefined]. *)
Definition get (o : value) (k : jsstring) : value :=
  match o with
  | VObj m => default VUndefined (m !! k)
  | _ => VUndefined
  end.

(** [o?.[k]]: [undefined] when [o] is [null] or [undefined]. *)
Definition opt_get (o : value) (k : jsstring) : value :=
  match o with
  | VUndefined | VNull => VUndefined
  | _ => get o k
  end.

(** ToBoolean. *)
Definition truthy (v : value) : bool :=
  match v with
  | VUndefined | VNull => false
  | VBool b => b
  | VNum (S754_zero _) | VNum S754_nan => false
  | VNum _ => true
  | VStr s => negb (bool_decide (s = []))
  | VArr _ | VObj _ => true
  end.

(** [a || b] and [a ?? b]. *)
Definition or (a b : value) : value := if truthy a then a else b.

Definition nullish (v : value) : bool :=
  match v with VUndefined | VNull => true | _ => false end.

Definition coalesce (a b : value) : value := if nullish a then b else a.

Notation "o ?. k" := (opt_get o (js k)) (at level 20, k at level 0, format "o ?. k").
Infix "|||" := or (at level 50, left associativity).
Infix "???" := coalesce (at level 50, left associativity).

(** *** Exceptions

    The one exception the modelled functions can raise is a [TypeError]. *)

Inductive exn := TypeError.

Inductive result (A : Type) :=
| Ok (a : A)
| Throw (e : exn).

Arguments Ok {A} a.
Arguments Throw {A} e.

#[global] Instance result_ret : MRet result := @Ok.

#[global] Instance result_bind : MBind result :=
  fun A B f r => match r with Ok a => f a | Throw e => Throw e end.

(** *** parseFloat

    [parseFloat(input)]: leading white space is skipped, then the longest
    prefix that is a StrDecimalLiteral is read (a sign, [Infinity], or digits
    with an optional point, fraction digits and exponent); with no such
    prefix the result is NaN.  The number is the binary64 value nearest to the
    decimal value read. *)

Fixpoint span_digits (s : jsstring) : jsstring * jsstring :=
  match s with
  | c :: s' =>
      if is_digit c then let '(d, r) := span_digits s' in (c :: d, r)
      else ([], s)
  | [] => ([], [])
  end.

Definition dec_value (ds : jsstring) : Z :=
  fold_left (fun a c => 10 * a + (Z.of_N c - 48))%Z ds 0%Z.

Definition read_sign (s : jsstring) : bool * jsstring :=
  match s with
  | c :: t =>
      if (c =? 45)%N then (true, t)
      else if (c =? 43)%N then (false, t)
      else (false, s)
  | [] => (false, s)
  end.

(** ExponentPart: [e] or [E], an optional sign and at least one digit;
    anything else is no exponent. *)
Definition exponent_part (s : jsstring) : Z :=
  match s with
  | c :: s' =>
      if (c =? 101)%N || (c =? 69)%N then
        let '(neg, t) := read_sign s' in
        let v := dec_value (span_digits t).1 in
        if neg then (- v)%Z else v
      else 0%Z
  | [] => 0%Z
  end.

Definition parseFloat (input : jsstring) : number :=
  let '(neg, s) := read_sign (trim_start input) in
  if starts_with (js "Infinity") s then S754_infinity neg else
  let '(ip, r1) := span_digits s in
  let '(fp, r2) :=
    match r1 with
    | c :: t => if (c =? 46)%N then span_digits t else ([], r1)
    | [] => ([], r1)
    end in
  match ip ++ fp with
  | [] => NaN
  | ds => nearest_double neg (dec_value ds)
            (exponent_part r2 - Z.of_nat (length fp))
  end.

(** *** Regular expressions

    The constructs the program's patterns use.  A class is a predicate on
    code units; [StarC c] is [c*] for a class [c]. *)

Inductive regex :=
| Chr (c : N → bool)
| Eps
| Cat (r1 r2 : regex)
| Alt (r1 r2 : regex)
| Opt (r : regex)
| StarC (c : N → bool)
| WordB
| Bol.

Definition is_word_at (c : option N) : bool :=
  match c with Some c => is_word c | None => false end.

(** A position in the subject is the code unit before it, if any, and the
    rest of the subject; [k] is what has to match after [r]. *)

Fixpoint match_star (c : N → bool) (k : option N → jsstring → bool)
    (prev : option N) (s : jsstring) : bool :=
  match s with
  | a :: s' => (c a && match_star c k (Some a) s') || k prev s
  | [] => k prev s
  end.

Fixpoint match_at (r : regex) (prev : option N) (s : jsstring)
    (k : option N → jsstring → bool) : bool :=
  match r with
  | Chr c => match s with a :: s' => c a && k (Some a) s' | [] => false end
  | Eps => k prev s
  | Cat r1 r2 => match_at r1 prev s (fun prev' s' => match_at r2 prev' s' k)
  | Alt r1 r2 => match_at r1 prev s k || match_at r2 prev s k
  | Opt r1 => match_at r1 prev s k || k prev s
  | StarC c => match_star c k prev s
  | WordB => xorb (is_word_at prev) (is_word_at (head s)) && k prev s
  | Bol => bool_decide (prev = None) && k prev s
  end.

Fixpoint search (r : regex) (prev : option N) (s : jsstring) : bool :=
  match_at r prev s (fun _ _ => true)
  || match s with a :: s' => search r (Some a) s' | [] => false end.

(** [r.test(s)] for a pattern without flags. *)
Definition RegExp_test (r : regex) (s : jsstring) : bool := search r None s.

(** The pattern of a literal text, and a sequence of patterns. *)
Definition lit (t : string) : regex :=
  foldr (fun a r => Cat (Chr (N.eqb a)) r) Eps (js t).

Definition cat (rs : list regex) : regex := foldr Cat Eps rs.

(** *** The built-ins taken from the runtime

    Case mapping, number printing and locale-aware formatting are tables of
    the JavaScript runtime, not code of the program. *)

Class Runtime := {
  (** [s.toLowerCase()] *)
  toLowerCase : jsstring → jsstring;
  (** the text of a number in a template literal or a concatenation *)
  Number_toString : number → jsstring;
  (** [new Intl.NumberFormat("de-DE", {style: "currency", currency: "EUR"}).format(n)],
      [None] when it throws *)
  Intl_format_EUR : number → option jsstring
}.

(** ToString of a value, as a template literal, [+] with a string and
    [RegExp.prototype.test] apply it.  An array prints its elements joined by
    commas, [null] and [undefined] elements as the empty text.  An object
    prints as [[object Object]]; when it has a property [toString] of its own,
    which is no function, the conversion raises a TypeError. *)

Fixpoint ToString `{Runtime} (v : value) : result jsstring :=
  match v with
  | VUndefined => Ok (js "undefined")
  | VNull => Ok (js "null")
  | VBool b => Ok (js (if b then "true" else "false"))
  | VNum n => Ok (Number_toString n)
  | VStr s => Ok s
  | VArr l =>
      ss ← (fix elements (l : list value) : result (list jsstring) :=
              match l with
              | [] => Ok []
              | x :: l' =>
                  s ← (if nullish x then Ok [] else ToString x);
                  r ← elements l';
                  Ok (s :: r)
              end) l;
      Ok (join (js ",") ss)
  | VObj m =>
      if bool_decide (is_Some (m !! js "toString")) then Throw TypeError
      else Ok (js "[object Object]")
  end.

(** A method call [v.toLowerCase()]: only a string has the method. *)
Definition call_toLowerCase `{Runtime} (v : value) : result jsstring :=
  match v with
  | VStr s => Ok (toLowerCase s)
  | _ => Throw TypeError
  end.

(** [for (const x of v)]: an array gives its elements, a string its code
    points (a surrogate pair is one of them); nothing else that is truthy can
    be iterated. *)

Definition is_high_surrogate (c : N) : bool := (55296 <=? c)%N && (c <=? 56319)%N.
Definition is_low_surrogate (c : N) : bool := (56320 <=? c)%N && (c <=? 57343)%N.

Fixpoint code_points (s : jsstring) : list jsstring :=
  match s with
  | a :: s' =>
      match s' with
      | b :: s'' =>
          if is_high_surrogate a && is_low_surrogate b
          then [a; b] :: code_points s''
          else [a] :: code_points s'
      | [] => [[a]]
      end
  | [] => []
  end.

Definition iterate (v : value) : result (list value) :=
  match v with
  | VArr l => Ok l
  | VStr s => Ok (VStr <$> code_points s)
  | _ => Throw TypeError
  end.

(** A [for ... of] loop whose body returns from the function at the first
    element that gives a result. *)
Fixpoint for_of_return {A B : Type} (body : A → option B) (l : list A) : option B :=
  match l with
  | [] => None
  | x :: l' =>
      match body x with
      | Some b => Some b
      | None => for_of_return body l'
      end
  end.

(** A number or [null] as a value. *)
Definition of_nullable (n : option number) : value :=
  match n with Some n => VNum n | None => VNull end.

End JS.

(** ** src/check.js *)

Module CheckJs.
Import JS.

Section Program.
Context `{Runtime}.

Definition REFERER_URL : jsstring :=
  js "https://www.tesla.com/de_DE/inventory/used/m3?arrangeby=plh&range=0".
Definition TARGET_PRICE_EUR : number := num 29000.
Definition MIN_RANGE_KM : number := num 600.

(** [/[^\d.]/]: the class of the code units that [numberFrom] removes. *)
Definition not_digit_or_point (c : N) : bool :=
  negb (is_digit c || (c =? 46)%N).

(** [v.replace] with that class, the flag [g] and the empty text as the
    replacement: every match is removed. *)
Definition replace_non_numeric (v : jsstring) : jsstring :=
  List.filter (fun c => negb (not_digit_or_point c)) v.

Definition numberFrom (v : value) : option number :=
  match v with
  | VNum n => Some n
  | VStr s =>
      let n := parseFloat (replace_non_numeric s) in
      if isFinite n then Some n else None
  | _ => None
  end.

Definition pick (obj : value) (path : list jsstring) : value :=
  fold_left (fun o k => if truthy o then get o k else VUndefined) path obj.

Definition price_keys : list jsstring :=
  [js "PurchasePrice"; js "Price"; js "TotalPrice"; js "TotalPriceAndFees"].

Definition extractPrice (item : value) : option number :=
  for_of_return (fun k => numberFrom (opt_get item k)) price_keys.

Definition range_paths : list (list jsstring) :=
  [ [js "Range"];
    [js "WLTPRange"];
    [js "BatteryRange"];
    [js "EUCombinedRange"];
    [js "Spec"; js "Range"];
    [js "Spec"; js "WLTPRange"];
    [js "Spec"; js "EUCombinedRange"];
    [js "Spec"; js "wltp_range"];
    [js "Spec"; js "range"] ].

(** [/\b(long\s*range|maximale\s*reichweite|lr)\b/] *)
Definition re_long_range : regex :=
  cat [ WordB;
        Alt (cat [lit "long"; StarC is_space; lit "range"])
          (Alt (cat [lit "maximale"; StarC is_space; lit "reichweite"])
             (lit "lr"));
        WordB ].

(** [/performance/] *)
Definition re_performance : regex := lit "performance".

(** [/\b(standard\s*range|rear[-\s]*wheel|heckantrieb)\b/] *)
Definition re_standard_range : regex :=
  cat [ WordB;
        Alt (cat [lit "standard"; StarC is_space; lit "range"])
          (Alt (cat [lit "rear"; StarC (fun c => (c =? 45)%N || is_space c);
                     lit "wheel"])
             (lit "heckantrieb"));
        WordB ].

(** The fallback of [extractRangeKm]: the estimate read off the trim text. *)
Definition range_from_trim (item : value) : result (option number) :=
  trim ← call_toLowerCase
            (item?."TrimName" ||| item?."Trim" ||| item?."SpecName" ||| VStr []);
  if RegExp_test re_long_range trim then Ok (Some (num 620))
  else if RegExp_test re_performance trim then Ok (Some (num 560))
  else if RegExp_test re_standard_range trim then Ok (Some (num 490))
  else Ok None.

Definition extractRangeKm (item : value) : result (option number) :=
  match for_of_return (fun p => numberFrom (pick item p)) range_paths with
  | Some n => Ok (Some n)
  | None => range_from_trim item
  end.

(** [/^https?:/] *)
Definition re_http : regex := cat [Bol; lit "http"; Opt (lit "s"); lit ":"].

Definition itemUrl (item : value) : result value :=
  let href :=
    item?."PrcUrl" ||| item?."PermaLink" ||| item?."WebUrl" ||| item?."permalink" in
  if truthy href then
    s ← ToString href;
    if RegExp_test re_http s then Ok href
    else Ok (VStr (js "https://www.tesla.com" ++ s))
  else
    let vin := item?."VIN" ||| item?."Vin" ||| item?."vin" ||| VStr [] in
    s ← ToString (vin ||| VStr (js "result"));
    Ok (VStr (REFERER_URL ++ js "#" ++ s)).

(** The code units of the characters of the source that are not ASCII:
    the bullet, the euro sign and the car. *)
Definition bullet : jsstring := [8226%N].
Definition euro : jsstring := [8364%N].
Definition car : jsstring := [55357%N; 56983%N].

Definition fmtEUR (n : number) : jsstring :=
  match Intl_format_EUR n with
  | Some s => s
  | None => Number_toString n ++ js " " ++ euro
  end.

(** [odom] and [odoTxt] of [summarize]. *)
Definition odometer (item : value) : option number :=
  numberFrom (item?."Odometer" ??? item?."Mileage" ??? item?."Km").

Definition odoTxt (item : value) : jsstring :=
  match odometer item with
  | Some odom =>
      if truthy (VNum odom)
      then js " " ++ bullet ++ js " " ++ Number_toString (Math_round odom) ++ js " km"
      else []
  | None => []
  end.

Definition line1 (item : value) : result jsstring :=
  let year := item?."Year" ||| item?."year" ||| VStr [] in
  let trim := item?."TrimName" ||| item?."Trim" ||| item?."SpecName" ||| VStr [] in
  y ← (if truthy year then s ← ToString year; Ok (s ++ js " ") else Ok []);
  t ← ToString trim;
  Ok (JS.trim (car ++ js " " ++ y ++ js "Tesla Model 3 " ++ t)).

Definition line2 (item : value) (price rangeKm : number) : jsstring :=
  fmtEUR price ++ js " " ++ bullet ++ js " Reichweite ~"
  ++ Number_toString (Math_round rangeKm) ++ js " km" ++ odoTxt item.

Definition summarize (item : value) (price rangeKm : number) : result jsstring :=
  l1 ← line1 item;
  url ← itemUrl item;
  u ← ToString url;
  Ok (l1 ++ [10%N] ++ line2 item price rangeKm ++ [10%N] ++ u).

(** The main function, from the parsed body of the response to the matches. *)

Record Match := { item : value; price : number; rangeKm : number }.

Definition results_of (data : value) : value :=
  data?."results" ||| data?."Results" ||| VArr [].

(** One turn of the loop over the results: [None] is [continue] or a failed
    test, [Some m] is [matches.push(m)]. *)
Definition filter_item (it : value) : result (option Match) :=
  let price := extractPrice it in
  rangeKm ← extractRangeKm it;
  match price, rangeKm with
  | Some p, Some r =>
      if lt p TARGET_PRICE_EUR && gt r MIN_RANGE_KM
      then Ok (Some {| item := it; price := p; rangeKm := r |})
      else Ok None
  | _, _ => Ok None
  end.

Fixpoint collect (items : list value) (matches : list Match) : result (list Match) :=
  match items with
  | [] => Ok matches
  | it :: rest =>
      m ← filter_item it;
      collect rest (match m with Some m => matches ++ [m] | None => matches end)
  end.

Definition find_matches (data : value) : result (list Match) :=
  items ← iterate (results_of data);
  collect items [].

End Program.
End CheckJs.

(** ** src/unnamed/part_000

    The earlier variant of check.js: no cookie, no fallback on the trim text
    in [extractRangeKm], the thresholds written in the loop. *)

Module Part000.
Import JS.

Section Program.
Context `{Runtime}.

Definition not_digit_or_point (c : N) : bool :=
  negb (is_digit c || (c =? 46)%N).

Definition replace_non_numeric (v : jsstring) : jsstring :=
  List.filter (fun c => negb (not_digit_or_point c)) v.

Definition numberFrom (v : value) : option number :=
  match v with
  | VNum n => Some n
  | VStr s =>
      let n := parseFloat (replace_non_numeric s) in
      if isFinite n then Some n else None
  | _ => None
  end.

Definition pick (obj : value) (path : list jsstring) : value :=
  fold_left (fun o k => if truthy o then get o k else VUndefined) path obj.

Definition price_keys : list jsstring :=
  [js "PurchasePrice"; js "Price"; js "TotalPrice"; js "TotalPriceAndFees"].

Definition extractPrice (item : value) : option number :=
  for_of_return (fun k => numberFrom (opt_get item k)) price_keys.

Definition range_paths : list (list jsstring) :=
  [ [js "Range"];
    [js "WLTPRange"];
    [js "BatteryRange"];
    [js "EUCombinedRange"];
    [js "Spec"; js "Range"];
    [js "Spec"; js "WLTPRange"];
    [js "Spec"; js "EUCombinedRange"];
    [js "Spec"; js "wltp_range"];
    [js "Spec"; js "range"] ].

Definition extractRangeKm (item : value) : option number :=
  for_of_return (fun p => numberFrom (pick item p)) range_paths.

Definition re_http : regex := cat [Bol; lit "http"; Opt (lit "s"); lit ":"].

Definition itemUrl (item : value) : result value :=
  let href :=
    item?."PrcUrl" ||| item?."PermaLink" ||| item?."WebUrl" ||| item?."permalink" in
  if truthy href then
    s ← ToString href;
    if RegExp_test re_http s then Ok href
    else Ok (VStr (js "https://www.tesla.com" ++ s))
  else
    let vin := item?."VIN" ||| item?."Vin" ||| item?."vin" ||| VStr [] in
    s ← ToString (vin ||| VStr (js "result"));
    Ok (VStr (js "https://www.tesla.com/de_DE/inventory/used/m3?arrangeby=plh&range=0#"
              ++ s)).

Definition fmtEUR (n : number) : jsstring :=
  match Intl_format_EUR n with
  | Some s => s
  | None => Number_toString n ++ js " " ++ [8364%N]
  end.

Definition odometer (item : value) : option number :=
  numberFrom (item?."Odometer" ??? item?."Mileage" ??? item?."Km").

Definition odoTxt (item : value) : jsstring :=
  match odometer item with
  | Some odom =>
      if truthy (VNum odom)
      then js " " ++ [8226%N] ++ js " " ++ Number_toString (Math_round odom) ++ js " km"
      else []
  | None => []
  end.

Definition line1 (item : value) : result jsstring :=
  let year := item?."Year" ||| item?."year" ||| VStr [] in
  let trim := item?."TrimName" ||| item?."Trim" ||| item?."SpecName" ||| VStr [] in
  y ← (if truthy year then s ← ToString year; Ok (s ++ js " ") else Ok []);
  t ← ToString trim;
  Ok (JS.trim ([55357%N; 56983%N] ++ js " " ++ y ++ js "Tesla Model 3 " ++ t)).

Definition line2 (item : value) (price rangeKm : number) : jsstring :=
  fmtEUR price ++ js " " ++ [8226%N] ++ js " Reichweite ~"
  ++ Number_toString (Math_round rangeKm) ++ js " km" ++ odoTxt item.

Definition summarize (item : value) (price rangeKm : number) : result jsstring :=
  l1 ← line1 item;
  url ← itemUrl item;
  u ← ToString url;
  Ok (l1 ++ [10%N] ++ line2 item price rangeKm ++ [10%N] ++ u).

Record Match := { item : value; price : number; rangeKm : number }.

Definition results_of (data : value) : value :=
  data?."results" ||| data?."Results" ||| VArr [].

Definition filter_item (it : value) : option Match :=
  match extractPrice it, extractRangeKm it with
  | Some p, Some r =>
      if lt p (num 29000) && gt r (num 600)
      then Some {| item := it; price := p; rangeKm := r |}
      else None
  | _, _ => None
  end.

Fixpoint collect (items : list value) (matches : list Match) : list Match :=
  match items with
  | [] => matches
  | it :: rest =>
      collect rest
        (match filter_item it with Some m => matches ++ [m] | None => matches end)
  end.

Definition find_matches (data : value) : result (list Match) :=
  items ← iterate (results_of data);
  Ok (collect items []).

End Program.
End Part000.

(** ** The requests and the main function

    The program talks to three servers and to the console.  A run is a
    function of what the environment and the servers answer, the [world], and
    gives the sequence of what the program did, the [trace], and how it
    ended. *)

Module Effects.
Import JS.

(** What is thrown: the [Error] that the program makes of a status, a
    TypeError of the engine, or the reason of a rejected request or body
    read, kept as the text that [String(err)] gives. *)
Inductive error :=
| HttpError (status : Z)
| Raised (e : exn)
| Rejected (reason : jsstring).

(** The texts that are sent: the warning of a blocked request, the report
    of a failure, which is its prefix followed by [String(err)], and the
    summary of a match. *)
Inductive message :=
| Blocked
| CheckerFailed (err : error)
| Summary (text : jsstring).

Inductive event :=
| FetchReferer
| FetchApi (cookie : option jsstring)
| SendTelegram (msg : message)
| Sleep (ms : Z)
| ErrorMissingEnv
| ErrorSendFailed (body : jsstring)
| ErrorBlocked (snippet : jsstring)
| ErrorChecker (err : error)
| LogNoMatches.

(** The answer to the request for the referer page: the request is rejected,
    or there is a response, whose headers give the Set-Cookie lines when the
    runtime has [getSetCookie]. *)
Inductive referer_response :=
| RefererFails (reason : jsstring)
| RefererHeaders (set_cookie : option (list jsstring)).

(** The answer to the request for the inventory: its status, its body as a
    text ([None] when reading it is rejected) and as JSON (the reason when
    parsing it is rejected). *)
Inductive api_response :=
| ApiFails (reason : jsstring)
| ApiStatus (status : Z) (text : option jsstring) (json : jsstring + value).

(** The answer to one message: accepted, answered with a status that is
    not a success and a body, or rejected. *)
Inductive send_response :=
| Delivered
| Refused (body : jsstring)
| SendFails (reason : jsstring).

Record world := {
  TELEGRAM_TOKEN : value;
  TELEGRAM_CHAT_ID : value;
  referer : referer_response;
  api : api_response;
  (** the answer to the message with this number, counted from 0 *)
  telegram : nat → send_response
}.

Record state := { posts : nat; trace : list event }.

(** A step returns, throws, or ends the process with [process.exit]. *)
Inductive outcome (A : Type) :=
| Returns (a : A)
| Throws (err : error)
| Exits (code : Z).

Arguments Returns {A} a.
Arguments Throws {A} err.
Arguments Exits {A} code.

Definition M (A : Type) : Type := state → outcome A * state.

#[global] Instance M_ret : MRet M := fun A a st => (Returns a, st).

#[global] Instance M_bind : MBind M := fun A B f c st =>
  match c st with
  | (Returns a, st') => f a st'
  | (Throws err, st') => (Throws err, st')
  | (Exits code, st') => (Exits code, st')
  end.

Definition emit (e : event) : M unit := fun st =>
  (Returns (), {| posts := posts st; trace := trace st ++ [e] |}).

Definition throw {A : Type} (err : error) : M A := fun st => (Throws err, st).

Definition exit {A : Type} (code : Z) : M A := fun st => (Exits code, st).

(** [try { body } catch (err) { handler }]; [process.exit] is not caught. *)
Definition try_catch {A : Type} (body : M A) (handler : error → M A) : M A :=
  fun st =>
    match body st with
    | (Throws err, st') => handler err st'
    | r => r
    end.

(** The exit code of the process: 0 when the main function returns. *)
Definition exit_code {A : Type} (r : outcome A * state) : Z :=
  match r.1 with
  | Returns _ => 0
  | Throws _ => 1
  | Exits code => code
  end.

(** The messages of a trace, in order. *)
Definition sent (t : list event) : list message :=
  omap (fun e => match e with SendTelegram msg => Some msg | _ => None end) t.

(** [s.split(sep)] for a separator of one code unit. *)
Fixpoint split (sep : N) (s : jsstring) : list jsstring :=
  match s with
  | [] => [[]]
  | c :: s' =>
      if (c =? sep)%N then [] :: split sep s'
      else match split sep s' with
           | p :: ps => (c :: p) :: ps
           | [] => [[c]]
           end
  end.

End Effects.

(** ** src/check.js: the requests and the main function *)

Module CheckMain.
Import JS Effects.

Section Program.
Context `{Runtime}.
Variable w : world.

(** The cookie header made of the Set-Cookie lines: of each line the text
    before its first semicolon, joined by a semicolon and a blank; no line
    when the runtime has no [getSetCookie]. *)
Definition cookies_of (set_cookie : option (list jsstring)) : jsstring :=
  let arr := default [] set_cookie in
  join (js "; ") ((fun c => default [] (head (split 59 c))) <$> arr).

Definition getTeslaCookies : M jsstring :=
  emit FetchReferer;;
  match referer w with
  | RefererFails reason => throw (Rejected reason)
  | RefererHeaders set_cookie => mret (cookies_of set_cookie)
  end.

Definition sendTelegram (msg : message) : M unit := fun st =>
  let st' := {| posts := S (posts st); trace := trace st ++ [SendTelegram msg] |} in
  match telegram w (posts st) with
  | Delivered => (Returns (), st')
  | Refused body => emit (ErrorSendFailed body) st'
  | SendFails reason => (Throws (Rejected reason), st')
  end.

(** The loop over the matches. *)
Fixpoint notify (matches : list CheckJs.Match) : M unit :=
  match matches with
  | [] => mret ()
  | m :: rest =>
      match CheckJs.summarize (CheckJs.item m) (CheckJs.price m) (CheckJs.rangeKm m) with
      | Throw e => throw (Raised e)
      | Ok text =>
          sendTelegram (Summary text);;
          emit (Sleep 400);;
          notify rest
      end
  end.

(** The body of the [try] of the main function. *)
Definition attempt : M unit :=
  cookie ← getTeslaCookies;
  emit (FetchApi (if truthy (VStr cookie) then Some cookie else None));;
  match api w with
  | ApiFails reason => throw (Rejected reason)
  | ApiStatus status text json =>
      if (status =? 403)%Z then
        let body := default [] text in
        sendTelegram Blocked;;
        emit (ErrorBlocked (take 400 body));;
        exit 1
      else if negb ((200 <=? status)%Z && (status <=? 299)%Z) then
        throw (HttpError status)
      else
        match json with
        | inl reason => throw (Rejected reason)
        | inr data =>
            match CheckJs.find_matches data with
            | Throw e => throw (Raised e)
            | Ok [] => emit LogNoMatches
            | Ok matches => notify matches
            end
        end
  end.

(** The [catch] of the main function. *)
Definition report (err : error) : M unit :=
  emit (ErrorChecker err);;
  try_catch (sendTelegram (CheckerFailed err)) (fun _ => mret ());;
  exit 1.

Definition main : M unit := try_catch attempt report.

(** The whole file: the test of the environment, then the main function. *)
Definition run : outcome unit * state :=
  if negb (truthy (TELEGRAM_TOKEN w)) || negb (truthy (TELEGRAM_CHAT_ID w))
  then (Exits 1, {| posts := 0; trace := [ErrorMissingEnv] |})
  else main {| posts := 0; trace := [] |}.

End Program.
End CheckMain.

(** ** src/unnamed/part_000: the requests and the main function

    The earlier variant asks for no cookie, has no case for the status 403
    and does not look at the answer to a message. *)

Module Part000Main.
Import JS Effects.

Section Program.
Context `{Runtime}.
Variable w : world.

Definition sendTelegram (msg : message) : M unit := fun st =>
  let st' := {| posts := S (posts st); trace := trace st ++ [SendTelegram msg] |} in
  match telegram w (posts st) with
  | Delivered | Refused _ => (Returns (), st')
  | SendFails reason => (Throws (Rejected reason), st')
  end.

Fixpoint notify (matches : list Part000.Match) : M unit :=
  match matches with
  | [] => mret ()
  | m :: rest =>
      match Part000.summarize (Part000.item m) (Part000.price m) (Part000.rangeKm m) with
      | Throw e => throw (Raised e)
      | Ok text =>
          sendTelegram (Summary text);;
          emit (Sleep 400);;
          notify rest
      end
  end.

Definition attempt : M unit :=
  emit (FetchApi None);;
  match api w with
  | ApiFails reason => throw (Rejected reason)
  | ApiStatus status text json =>
      if negb ((200 <=? status)%Z && (status <=? 299)%Z) then
        throw (HttpError status)
      else
        match json with
        | inl reason => throw (Rejected reason)
        | inr data =>
            match Part000.find_matches data with
            | Throw e => throw (Raised e)
            | Ok [] => emit LogNoMatches
            | Ok matches => notify matches
            end
        end
  end.

Definition report (err : error) : M unit :=
  emit (ErrorChecker err);;
  try_catch (sendTelegram (CheckerFailed err)) (fun _ => mret ());;
  exit 1.

Definition main : M unit := try_catch attempt report.

Definition run : outcome unit * state :=
  if negb (truthy (TELEGRAM_TOKEN w)) || negb (truthy (TELEGRAM_CHAT_ID w))
  then (Exits 1, {| posts := 0; trace := [ErrorMissingEnv] |})
  else main {| posts := 0; trace := [] |}.

End Program.
End Part000Main.

(** ** A runtime to evaluate with

    The theorems hold for every runtime.  To run the functions on records,
    this one maps case within ASCII, prints the integral numbers of magnitude
    up to [2^53], NaN and the infinities as JavaScript does (and an
    integer next to any other number), and has no [Intl].  The examples
    stay within ASCII labels and such numbers. *)

Module Reference.
Import JS.

Definition lower_unit (c : N) : N :=
  if (65 <=? c)%N && (c <=? 90)%N then (c + 32)%N else c.

Fixpoint digits_of (fuel : nat) (n : N) (acc : jsstring) : jsstring :=
  match fuel with
  | O => acc
  | S fuel' =>
      let acc' := (48 + n mod 10)%N :: acc in
      if (n <? 10)%N then acc' else digits_of fuel' (n / 10)%N acc'
  end.

Definition integer_text (z : Z) : jsstring :=
  (if (z <? 0)%Z then js "-" else [])
  ++ digits_of (S (N.to_nat (N.log2 (Z.abs_N z)))) (Z.abs_N z) [].

Definition number_text (x : number) : jsstring :=
  match x with
  | S754_zero _ => js "0"
  | S754_nan => js "NaN"
  | S754_infinity s => if s then js "-Infinity" else js "Infinity"
  | S754_finite s m e =>
      integer_text (Z.shiftl (if s then Zneg m else Zpos m) e)
  end.

#[global] Instance runtime : Runtime := {|
  toLowerCase := map lower_unit;
  Number_toString := number_text;
  Intl_format_EUR := fun _ => None
|}.

Definition obj (l : list (string * value)) : value :=
  VObj (list_to_map (prod_map js id <$> l)).

Definition str (s : string) : value := VStr (js s).

(** The records of the examples. *)

Definition listing : value :=
  obj [ ("Price", VNum (num 25000)); ("Range", VNum (num 650)) ].

Definition two_prices : value :=
  obj [ ("Price", str "n/a"); ("TotalPrice", VNum (num 27000));
        ("TotalPriceAndFees", VNum (num 28000));
        ("Range", VNull);
        ("Spec", obj [("WLTPRange", str "612 km"); ("range", VNum (num 500))]) ].

Definition long_range : value := obj [("TrimName", str "Model 3 Long Range AWD")].

Definition relative_link : value := obj [("PermaLink", str "/de_DE/m3/order/5YJ3E7EB")].

Definition with_mileage : value := obj [("Mileage", str "45,200 km")].

(** The worlds of the examples: an inventory of three records, of which the
    first and the second match, and servers that answer. *)

Definition by_estimate : value :=
  obj [ ("PurchasePrice", VNum (num 28500)); ("TrimName", str "Long Range AWD");
        ("VIN", str "5YJ3E7EB1KF000001") ].

Definition too_dear : value :=
  obj [ ("Price", VNum (num 31000)); ("Range", VNum (num 700)) ].

Definition inventory : value :=
  obj [ ("results", VArr [listing; by_estimate; too_dear]) ].

Definition two_matches : list CheckJs.Match :=
  [ {| CheckJs.item := listing; CheckJs.price := num 25000;
       CheckJs.rangeKm := num 650 |};
    {| CheckJs.item := by_estimate; CheckJs.price := num 28500;
       CheckJs.rangeKm := num 620 |} ].

Definition set_cookie_lines : list jsstring :=
  [ js "tsla_sid=abc123; Path=/; Secure; HttpOnly"; js "lang=de" ].

Definition answering (response : Effects.api_response)
    (answers : nat → Effects.send_response) : Effects.world :=
  {| Effects.TELEGRAM_TOKEN := str "123456:token";
     Effects.TELEGRAM_CHAT_ID := str "42";
     Effects.referer := Effects.RefererHeaders (Some set_cookie_lines);
     Effects.api := response;
     Effects.telegram := answers |}.

Definition first_refused (n : nat) : Effects.send_response :=
  match n with
  | 0 => Effects.Refused (js "Too Many Requests")
  | _ => Effects.Delivered
  end.

Definition first_rejected (n : nat) : Effects.send_response :=
  match n with
  | 0 => Effects.SendFails (js "TypeError: fetch failed")
  | _ => Effects.Delivered
  end.

Definition world_ok : Effects.world :=
  answering (Effects.ApiStatus 200 None (inr inventory)) first_refused.

Definition world_rejecting : Effects.world :=
  answering (Effects.ApiStatus 200 None (inr inventory)) first_rejected.

Definition world_blocked : Effects.world :=
  answering (Effects.ApiStatus 403 (Some (js "Access Denied")) (inl (js "SyntaxError")))
    first_refused.

Definition world_unavailable : Effects.world :=
  answering (Effects.ApiStatus 503 None (inl (js "SyntaxError"))) first_refused.

End Reference.

(** ** The words of the specification

    The notions the statements below take from the specification rather than
    from the code. *)

Import JS.

(** A candidate path is flat when it names one field, nested when it names a
    field of a field. *)
Definition is_flat (p : list jsstring) : bool := bool_decide (length p = 1).
Definition is_nested (p : list jsstring) : bool := bool_decide (length p = 2).

(** The words of the specification, "starts with a URL scheme": a letter,
    then letters, digits, [+], [-] or [.], then a colon (RFC 3986). *)

Definition is_alpha (c : N) : bool :=
  ((65 <=? c)%N && (c <=? 90)%N) || ((97 <=? c)%N && (c <=? 122)%N).

Fixpoint scheme_tail (s : jsstring) : bool :=
  match s with
  | c :: s' =>
      (c =? 58)%N
      || ((is_alpha c || is_digit c || (c =? 43)%N || (c =? 45)%N || (c =? 46)%N)
          && scheme_tail s')
  | [] => false
  end.

Definition starts_with_scheme (s : jsstring) : bool :=
  match s with
  | c :: s' => is_alpha c && scheme_tail s'
  | [] => false
  end.

(** What the pattern of [itemUrl] accepts. *)
Definition starts_with_http (s : jsstring) : bool :=
  starts_with (js "http:") s || starts_with (js "https:") s.


(** The words of the specification, "currency symbols", "thousands
    separators" and "the number the text denotes".

    A text for an amount is written in one of two notations: with the point
    as the decimal mark (1,234.56) or with the comma (1.234,56, the notation
    of the German market).  The thousands separator is the other of the two, a
    blank, a no-break, thin or narrow no-break space, or an apostrophe. *)
















(** A code unit that the stripping removes: any but a digit and the point. *)
Definition extraneous (c : N) : Prop := CheckJs.not_digit_or_point c = true.


(** ** Further notions

    What the statements about the rest of the code need. *)

(** The sign of a number: set on the negative numbers and on [-0]. *)
Definition signbit (x : number) : bool :=
  match x with
  | S754_zero s | S754_infinity s | S754_finite s _ _ => s
  | S754_nan => false
  end.

(** A value that is neither an array nor an object. *)
Definition primitive (v : value) : bool :=
  match v with VArr _ | VObj _ => false | _ => true end.

(** The fields of a record that [extractPrice] and [extractRangeKm] of
    src/check.js read. *)
Definition extraction_fields : list jsstring :=
  CheckJs.price_keys
  ++ [js "Range"; js "WLTPRange"; js "BatteryRange"; js "EUCombinedRange";
      js "Spec"; js "TrimName"; js "Trim"; js "SpecName"].

(** The match that a record gives, if it gives one without an exception. *)
Definition accepted `{Runtime} (it : value) : option CheckJs.Match :=
  match CheckJs.filter_item it with
  | Ok o => o
  | Throw _ => None
  end.


(** The summaries of a list of matches, when all can be made. *)
Definition summaries `{Runtime} (ms : list CheckJs.Match) (texts : list jsstring)
    : Prop :=
  Forall2 (fun m t =>
      CheckJs.summarize (CheckJs.item m) (CheckJs.price m) (CheckJs.rangeKm m) = Ok t)
    ms texts.

(** The matches of the inventory of a run: those of the body of an answer
    with a success status, in the order of its results; none when there is
    no such answer, the body does not parse or a record raises. *)
Definition inventory_matches `{Runtime} (w : Effects.world) : list CheckJs.Match :=
  match Effects.api w with
  | Effects.ApiStatus status _ (inr data) =>
      if (200 <=? status)%Z && (status <=? 299)%Z then
        match CheckJs.find_matches data with Ok ms => ms | Throw _ => [] end
      else []
  | _ => []
  end.

(** The same for the earlier variant. *)
Definition part000_summaries `{Runtime} (ms : list Part000.Match)
    (texts : list jsstring) : Prop :=
  Forall2 (fun m t =>
      Part000.summarize (Part000.item m) (Part000.price m) (Part000.rangeKm m) = Ok t)
    ms texts.

Definition part000_inventory_matches `{Runtime} (w : Effects.world)
    : list Part000.Match :=
  match Effects.api w with
  | Effects.ApiStatus status _ (inr data) =>
      if (200 <=? status)%Z && (status <=? 299)%Z then
        match Part000.find_matches data with Ok ms => ms | Throw _ => [] end
      else []
  | _ => []
  end.

(** No message among the first [n] is rejected. *)
Definition none_rejected (w : Effects.world) (n : nat) : Prop :=
  ∀ i, i < n → ∀ reason, Effects.telegram w i ≠ Effects.SendFails reason.

(** The environment names a token and a chat. *)
Definition configured (w : Effects.world) : Prop :=
  truthy (Effects.TELEGRAM_TOKEN w) = true
  ∧ truthy (Effects.TELEGRAM_CHAT_ID w) = true.

(** The cookie header of the request for the inventory: none when the
    cookie is the empty text. *)
Definition cookie_sent (set_cookie : option (list jsstring)) : option jsstring :=
  if truthy (VStr (CheckMain.cookies_of set_cookie))
  then Some (CheckMain.cookies_of set_cookie) else None.

(** The complaint on the console that follows the message with number [n]
    when the server refused it. *)
Definition complaint (w : Effects.world) (n : nat) : list Effects.event :=
  match Effects.telegram w n with
  | Effects.Refused body => [Effects.ErrorSendFailed body]
  | _ => []
  end.

(** What the earlier variant never does: ask for the referer page, send a
    cookie, warn of a blocked request, or complain about a refused message. *)
Definition part000_event (e : Effects.event) : bool :=
  match e with
  | Effects.FetchReferer | Effects.FetchApi (Some _)
  | Effects.SendTelegram Effects.Blocked
  | Effects.ErrorSendFailed _ | Effects.ErrorBlocked _ => false
  | _ => true
  end.

(** ** Properties *)

(** *** Integers below [2^53] are numbers *)

Section ExactIntegers.
Open Scope Z_scope.







End ExactIntegers.

(** *** Loops with an early return *)

Section ForOfReturn.
Context {A B : Type} (body : A → option B).

Lemma for_of_return_first pre x post b :
  Forall (fun y => body y = None) pre →
  body x = Some b →
  for_of_return body (pre ++ x :: post) = Some b.
Proof.
  intros Hpre Hx. induction Hpre as [|y pre Hy _ IH]; simpl.
  - by rewrite Hx.
  - by rewrite Hy.
Qed.

Lemma for_of_return_none l :
  for_of_return body l = None ↔ Forall (fun y => body y = None) l.
Proof.
  induction l as [|x l IH]; simpl.
  - split; [constructor | done].
  - destruct (body x) eqn:Hx.
    + split; [done | intros Hl; inversion Hl; congruence].
    + rewrite IH. split; [by constructor | by inversion 1].
Qed.

Lemma for_of_return_some l b :
  for_of_return body l = Some b →
  ∃ pre x post, l = pre ++ x :: post
    ∧ Forall (fun y => body y = None) pre ∧ body x = Some b.
Proof.
  induction l as [|x l IH]; simpl; [done|].
  destruct (body x) eqn:Hx.
  - intros [= ->]. by exists [], x, l.
  - intros (pre & y & post & -> & Hpre & Hy)%IH.
    exists (x :: pre), y, post. split_and!; [done | by constructor | done].
Qed.

End ForOfReturn.

(** *** The two variants agree on coercion and on the price *)

Section Variants.
Context `{Runtime}.

(** C10: [numberFrom] and [extractPrice] of src/check.js and of
    src/unnamed/part_000 return the same result on every value and on every
    record. *)
Theorem variants_agree_numberFrom_extractPrice :
  (∀ v : value, CheckJs.numberFrom v = Part000.numberFrom v)
  ∧ (∀ item : value, CheckJs.extractPrice item = Part000.extractPrice item).
Proof.
  assert (Hn : ∀ v, CheckJs.numberFrom v = Part000.numberFrom v).
  { intros [| | | n | s | l | m]; simpl; try done. }
  split; [exact Hn|].
  intros item. unfold CheckJs.extractPrice, Part000.extractPrice.
  change Part000.price_keys with CheckJs.price_keys.
  generalize CheckJs.price_keys.
  intros keys. induction keys as [|k keys IH]; simpl; [done|].
  by rewrite Hn, IH.
Qed.

Lemma variants_agree_pick (obj : value) (path : list jsstring) :
  CheckJs.pick obj path = Part000.pick obj path.
Proof. done. Qed.

End Variants.

(** *** The first candidate that coerces wins *)

Section Candidates.
Context `{Runtime}.

(** C4, as amended: price extraction (four flat candidates) and range
    extraction (four flat candidates followed by five nested ones) each return
    the number of the first candidate, in the order of the list, that coerces;
    the candidates after it are not looked at. *)
Theorem first_coercible_candidate_wins (item : value) :
  (length CheckJs.price_keys = 4
   ∧ List.filter is_flat CheckJs.range_paths = take 4 CheckJs.range_paths
   ∧ List.filter is_nested CheckJs.range_paths = drop 4 CheckJs.range_paths
   ∧ length CheckJs.range_paths = 9)
  ∧ (∀ pre k post n,
       CheckJs.price_keys = pre ++ k :: post →
       Forall (fun k' => CheckJs.numberFrom (opt_get item k') = None) pre →
       CheckJs.numberFrom (opt_get item k) = Some n →
       CheckJs.extractPrice item = Some n)
  ∧ (∀ pre p post n,
       CheckJs.range_paths = pre ++ p :: post →
       Forall (fun p' => CheckJs.numberFrom (CheckJs.pick item p') = None) pre →
       CheckJs.numberFrom (CheckJs.pick item p) = Some n →
       CheckJs.extractRangeKm item = Ok (Some n)).
Proof.
  split; [by vm_compute|]. split.
  - intros pre k post n Hkeys Hpre Hk.
    unfold CheckJs.extractPrice. rewrite Hkeys.
    by apply for_of_return_first.
  - intros pre p post n Hpaths Hpre Hp.
    unfold CheckJs.extractRangeKm. rewrite Hpaths.
    by rewrite (for_of_return_first _ pre p post n).
Qed.

End Candidates.

(** *** The filter *)

Section Filter.
Context `{Runtime}.

Lemma thresholds :
  CheckJs.TARGET_PRICE_EUR = num 29000 ∧ CheckJs.MIN_RANGE_KM = num 600.
Proof. done. Qed.

(** The comparison is strict at both thresholds, and false on NaN. *)
Lemma lt_threshold_strict :
  lt (num 29000) CheckJs.TARGET_PRICE_EUR = false
  ∧ gt (num 600) CheckJs.MIN_RANGE_KM = false
  ∧ lt NaN CheckJs.TARGET_PRICE_EUR = false
  ∧ gt NaN CheckJs.MIN_RANGE_KM = false.
Proof. by vm_compute. Qed.

(** C1: a record produces a match exactly when its extracted price is a
    number below 29000 and its extracted range is a number above 600; a record
    at one of the thresholds, or with a [null] price or range, produces
    none, whatever the other value is. *)
Theorem filter_accepts_iff (it : value) :
  (∀ m, CheckJs.filter_item it = Ok (Some m) ↔
     ∃ p r, CheckJs.extractPrice it = Some p
       ∧ CheckJs.extractRangeKm it = Ok (Some r)
       ∧ lt p (num 29000) = true
       ∧ gt r (num 600) = true
       ∧ m = {| CheckJs.item := it; CheckJs.price := p; CheckJs.rangeKm := r |})
  ∧ (∀ r, CheckJs.extractPrice it = None →
       CheckJs.extractRangeKm it = Ok r → CheckJs.filter_item it = Ok None)
  ∧ (CheckJs.extractRangeKm it = Ok None → CheckJs.filter_item it = Ok None)
  ∧ (∀ r, CheckJs.extractPrice it = Some (num 29000) →
       CheckJs.extractRangeKm it = Ok r → CheckJs.filter_item it = Ok None)
  ∧ (CheckJs.extractRangeKm it = Ok (Some (num 600)) →
       CheckJs.filter_item it = Ok None).
Proof.
  unfold CheckJs.filter_item.
  change CheckJs.TARGET_PRICE_EUR with (num 29000).
  change CheckJs.MIN_RANGE_KM with (num 600).
  destruct (CheckJs.extractPrice it) as [p|] eqn:Hp;
    destruct (CheckJs.extractRangeKm it) as [[r|]|e] eqn:Hr; simpl.
  all: split_and!; try done.
  all: try (intros m; split;
            [ try done | by intros (p' & r' & ? & ? & _) ]).
  - intros m; split.
    + destruct (lt p (num 29000)) eqn:Hlt, (gt r (num 600)) eqn:Hgt; simpl;
        try done.
      intros [= <-]. by exists p, r.
    + intros (p' & r' & [= <-] & [= <-] & -> & -> & ->). done.
  - intros r' [= ->] _.
    by replace (lt (num 29000) (num 29000)) with false by by vm_compute.
  - intros [= ->].
    replace (gt (num 600) (num 600)) with false by by vm_compute.
    by rewrite andb_false_r.
Qed.

(** The loop keeps the matches in the order of the results. *)
Lemma collect_matches (items : list value) (acc : list CheckJs.Match)
    (ms : list (option CheckJs.Match)) :
  Forall2 (fun it m => CheckJs.filter_item it = Ok m) items ms →
  CheckJs.collect items acc = Ok (acc ++ omap id ms).
Proof.
  intros Hall. revert acc.
  induction Hall as [|it m items ms Hit _ IH]; intros acc; simpl.
  - by rewrite app_nil_r.
  - rewrite Hit. simpl. rewrite IH. destruct m; simpl; [|done].
    by rewrite <- app_assoc.
Qed.

End Filter.

(** *** The list of results *)

Section Results.
Context `{Runtime}.

Lemma or_truthy (a b : value) : truthy a = true → a ||| b = a.
Proof. unfold or. by intros ->. Qed.

Lemma or_falsy (a b : value) : truthy a = false → a ||| b = b.
Proof. unfold or. by intros ->. Qed.

(** C9: the list of results is the array under [results] when there is one,
    the array under [Results] when [results] is absent, and the empty array,
    with no error and no match, when both keys are absent.  Both variants. *)
Theorem results_from_either_key (data : value) :
  (∀ l, data?."results" = VArr l →
     CheckJs.results_of data = VArr l ∧ Part000.results_of data = VArr l)
  ∧ (∀ l, data?."results" = VUndefined → data?."Results" = VArr l →
     CheckJs.results_of data = VArr l ∧ Part000.results_of data = VArr l)
  ∧ (data?."results" = VUndefined → data?."Results" = VUndefined →
     (CheckJs.results_of data = VArr [] ∧ CheckJs.find_matches data = Ok [])
     ∧ (Part000.results_of data = VArr [] ∧ Part000.find_matches data = Ok [])).
Proof.
  unfold CheckJs.find_matches, Part000.find_matches.
  unfold CheckJs.results_of, Part000.results_of.
  split_and!.
  - intros l ->. done.
  - intros l -> ->. done.
  - intros -> ->. done.
Qed.

End Results.

(** *** The detail URL *)

Section DetailUrl.
Context `{Runtime}.

Lemma search_anchored (r : regex) (a : N) (s : jsstring) :
  search (Cat Bol r) (Some a) s = false.
Proof.
  revert a. induction s as [|b s IH]; intros a; simpl; [done|].
  by rewrite IH.
Qed.

Lemma test_anchored (r : regex) (s : jsstring) :
  RegExp_test (Cat Bol r) s = match_at r None s (fun _ _ => true).
Proof.
  unfold RegExp_test. destruct s as [|a s]; simpl.
  - by rewrite orb_false_r.
  - by rewrite search_anchored, orb_false_r.
Qed.

Lemma re_http_test (s : jsstring) :
  RegExp_test CheckJs.re_http s = starts_with_http s.
Proof.
  unfold CheckJs.re_http, cat. simpl foldr. rewrite test_anchored.
  unfold starts_with_http.
  destruct s as [|c1 [|c2 [|c3 [|c4 [|c5 [|c6 s]]]]]]; cbn -[N.eqb];
    repeat (match goal with
            | |- context [N.eqb ?a ?b] => destruct (N.eqb a b)
            end; cbn -[N.eqb]); reflexivity.
Qed.

Lemma starts_with_prefix (p s : jsstring) :
  starts_with p s = true ↔ ∃ rest, s = p ++ rest.
Proof.
  revert s. induction p as [|a p IH]; intros s; simpl.
  - split; [by exists s | done].
  - destruct s as [|b s]; simpl.
    + split; [done | by intros [rest ?]].
    + rewrite andb_true_iff, IH, N.eqb_eq. split.
      * intros [-> [rest ->]]. by exists rest.
      * intros [rest [= -> ->]]. split; [done | by exists rest].
Qed.

Lemma http_is_scheme (s : jsstring) :
  starts_with_http s = true → starts_with_scheme s = true.
Proof.
  unfold starts_with_http. rewrite orb_true_iff, !starts_with_prefix.
  by intros [[rest ->]|[rest ->]].
Qed.

(** C6: a record with none of the four link fields and none of the
    identifier fields set (absent, or empty, or any other falsy value)
    resolves to the referer page followed by [#result].  Both variants. *)
Theorem itemUrl_no_href_no_vin (item : value) :
  truthy (item?."PrcUrl") = false →
  truthy (item?."PermaLink") = false →
  truthy (item?."WebUrl") = false →
  truthy (item?."permalink") = false →
  truthy (item?."VIN") = false →
  truthy (item?."Vin") = false →
  truthy (item?."vin") = false →
  CheckJs.itemUrl item = Ok (VStr (CheckJs.REFERER_URL ++ js "#result"))
  ∧ Part000.itemUrl item = Ok (VStr (CheckJs.REFERER_URL ++ js "#result")).
Proof.
  intros H1 H2 H3 H4 H5 H6 H7.
  unfold CheckJs.itemUrl, Part000.itemUrl.
  rewrite (or_falsy (item?."PrcUrl")), (or_falsy (item?."PermaLink")),
    (or_falsy (item?."WebUrl")), H4 by done.
  rewrite (or_falsy (item?."VIN")), (or_falsy (item?."Vin")),
    (or_falsy (item?."vin")), (or_falsy (VStr [])) by done.
  done.
Qed.

(** C7, as amended: when the first link field that is set holds a value whose
    text does not start with [http:] or [https:], the result is the site
    origin followed by that text unchanged; a value whose text starts with
    [http:] or [https:] is returned as it is.  A text that starts with no
    URL scheme at all is among the former.  Both variants. *)
Theorem itemUrl_href (item href : value) (s : jsstring) :
  item?."PrcUrl" ||| item?."PermaLink" ||| item?."WebUrl" ||| item?."permalink"
    = href →
  truthy href = true →
  ToString href = Ok s →
  (starts_with_http s = false →
     CheckJs.itemUrl item = Ok (VStr (js "https://www.tesla.com" ++ s))
     ∧ Part000.itemUrl item = Ok (VStr (js "https://www.tesla.com" ++ s)))
  ∧ (starts_with_http s = true →
     CheckJs.itemUrl item = Ok href ∧ Part000.itemUrl item = Ok href)
  ∧ (starts_with_scheme s = false → starts_with_http s = false).
Proof.
  intros Hhref Htruthy Hs.
  unfold CheckJs.itemUrl, Part000.itemUrl.
  change Part000.re_http with CheckJs.re_http.
  rewrite Hhref, Htruthy, Hs. simpl. rewrite re_http_test.
  split_and!.
  - by intros ->.
  - by intros ->.
  - intros Hno. destruct (starts_with_http s) eqn:Hhttp; [|done].
    apply http_is_scheme in Hhttp. congruence.
Qed.

End DetailUrl.

(** *** Coercion of one candidate *)

Section Coercion.
Context `{Runtime}.

Lemma numberFrom_cases (v : value) (n : number) :
  CheckJs.numberFrom v = Some n →
  v = VNum n ∨ ((∃ s, v = VStr s) ∧ isFinite n = true).
Proof.
  destruct v as [| | | n' | s | l | m]; simpl; try done.
  - intros [= ->]. by left.
  - destruct (isFinite _) eqn:Hfin; [|done].
    intros [= <-]. right. split; [by exists s | done].
Qed.

Lemma range_from_trim_finite (item : value) (n : number) :
  CheckJs.range_from_trim item = Ok (Some n) → isFinite n = true.
Proof.
  unfold CheckJs.range_from_trim.
  destruct (call_toLowerCase _) as [trim|e]; simpl; [|done].
  repeat (destruct (RegExp_test _ trim); [by intros [= <-]|]).
  done.
Qed.

(** C3, as amended: a numeric candidate is passed through as it is, finite
    or not; a textual candidate is parsed after the stripping and rejected
    when the parsed number is not finite; any other candidate is rejected; a
    rejected candidate leaves the result to the candidates after it.  Hence
    an extracted price or range that is not finite is the value of a numeric
    candidate itself, never the outcome of parsing a text. *)
Theorem coercion_of_candidates (item : value) :
  (∀ n, CheckJs.numberFrom (VNum n) = Some n)
  ∧ (∀ s, CheckJs.numberFrom (VStr s) =
       if isFinite (parseFloat (CheckJs.replace_non_numeric s))
       then Some (parseFloat (CheckJs.replace_non_numeric s)) else None)
  ∧ (∀ s n, CheckJs.numberFrom (VStr s) = Some n → isFinite n = true)
  ∧ (∀ v, (∀ n, v ≠ VNum n) → (∀ s, v ≠ VStr s) → CheckJs.numberFrom v = None)
  ∧ (∀ (A : Type) (cand : A → value) c cs,
       CheckJs.numberFrom (cand c) = None →
       for_of_return (fun c => CheckJs.numberFrom (cand c)) (c :: cs)
       = for_of_return (fun c => CheckJs.numberFrom (cand c)) cs)
  ∧ (∀ n, CheckJs.extractPrice item = Some n →
       isFinite n = true
       ∨ ∃ k, k ∈ CheckJs.price_keys ∧ opt_get item k = VNum n)
  ∧ (∀ n, CheckJs.extractRangeKm item = Ok (Some n) →
       isFinite n = true
       ∨ ∃ p, p ∈ CheckJs.range_paths ∧ CheckJs.pick item p = VNum n).
Proof.
  split_and!.
  - done.
  - done.
  - intros s n [[= ?]|[_ ?]]%numberFrom_cases; done.
  - intros [| | | n | s | l | m] Hn Hs; simpl; try done.
    + by destruct (Hn n).
    + by destruct (Hs s).
  - intros A cand c cs Hc. simpl. by rewrite Hc.
  - intros n (pre & k & post & Hkeys & _ & Hk)%for_of_return_some.
    apply numberFrom_cases in Hk as [Hk|[_ Hfin]]; [right|by left].
    exists k. split; [|done]. rewrite Hkeys. set_solver.
  - intros n. unfold CheckJs.extractRangeKm.
    destruct (for_of_return _ CheckJs.range_paths) as [n'|] eqn:Hloop.
    + intros [= ->].
      apply for_of_return_some in Hloop as (pre & p & post & Hpaths & _ & Hp).
      apply numberFrom_cases in Hp as [Hp|[_ Hfin]]; [right|by left].
      exists p. split; [|done]. rewrite Hpaths. set_solver.
    + intros Hn. left. by eapply range_from_trim_finite.
Qed.

End Coercion.

(** *** The fallback of the range *)

Section Fallback.
Context `{Runtime}.

(** C5, as amended: when none of the nine candidates coerces, src/check.js
    reads the label (the first of TrimName, Trim, SpecName that is set) and,
    when it is a text, matches it in lower case: the long-range pattern gives
    620, else the performance pattern gives 560, else the standard-range
    pattern gives 490, else the result is [null].  The variant part_000 has
    no such fallback and returns [null]. *)
Theorem range_fallback_on_trim (item : value) (label : jsstring) :
  Forall (fun p => CheckJs.numberFrom (CheckJs.pick item p) = None)
    CheckJs.range_paths →
  item?."TrimName" ||| item?."Trim" ||| item?."SpecName" ||| VStr [] = VStr label →
  length CheckJs.range_paths = 9
  ∧ CheckJs.extractRangeKm item =
      Ok (if RegExp_test CheckJs.re_long_range (toLowerCase label)
          then Some (num 620)
          else if RegExp_test CheckJs.re_performance (toLowerCase label)
          then Some (num 560)
          else if RegExp_test CheckJs.re_standard_range (toLowerCase label)
          then Some (num 490)
          else None)
  ∧ Part000.extractRangeKm item = None.
Proof.
  intros Hnone Hlabel. split; [done|]. split.
  - unfold CheckJs.extractRangeKm.
    apply for_of_return_none in Hnone. rewrite Hnone.
    unfold CheckJs.range_from_trim. rewrite Hlabel. simpl.
    by repeat destruct (RegExp_test _ _).
  - by apply for_of_return_none.
Qed.

End Fallback.

(** *** The odometer in the summary *)

Section Summary.
Context `{Runtime}.

(** C8, as amended: the second line is the price, the range and then the
    odometer segment.  The segment is the bullet, the rounded odometer and the
    unit when the first of Odometer, Mileage, Km that is neither [null] nor
    [undefined] coerces to a number that is truthy (not zero, not NaN), and
    it is empty otherwise.  Both variants. *)
Theorem odometer_segment (item : value) (price rangeKm : number) :
  (CheckJs.line2 item price rangeKm =
     CheckJs.fmtEUR price ++ js " " ++ CheckJs.bullet ++ js " Reichweite ~"
     ++ Number_toString (Math_round rangeKm) ++ js " km" ++ CheckJs.odoTxt item)
  ∧ (∀ odom,
       CheckJs.numberFrom (item?."Odometer" ??? item?."Mileage" ??? item?."Km")
         = Some odom →
       truthy (VNum odom) = true →
       CheckJs.odoTxt item =
         js " " ++ CheckJs.bullet ++ js " "
         ++ Number_toString (Math_round odom) ++ js " km")
  ∧ (∀ odom,
       CheckJs.numberFrom (item?."Odometer" ??? item?."Mileage" ??? item?."Km")
         = Some odom →
       truthy (VNum odom) = false → CheckJs.odoTxt item = [])
  ∧ (CheckJs.numberFrom (item?."Odometer" ??? item?."Mileage" ??? item?."Km")
       = None →
     CheckJs.odoTxt item = [])
  ∧ (∀ s, CheckJs.summarize item price rangeKm = Ok s →
       ∃ l1 u, s = l1 ++ [10%N] ++ CheckJs.line2 item price rangeKm ++ [10%N] ++ u)
  ∧ Part000.odoTxt item = CheckJs.odoTxt item
  ∧ Part000.line2 item price rangeKm = CheckJs.line2 item price rangeKm
  ∧ Part000.summarize item price rangeKm = CheckJs.summarize item price rangeKm.
Proof.
  split_and!; try done.
  - intros odom Ho Ht. unfold CheckJs.odoTxt, CheckJs.odometer.
    by rewrite Ho, Ht.
  - intros odom Ho Ht. unfold CheckJs.odoTxt, CheckJs.odometer.
    by rewrite Ho, Ht.
  - intros Ho. unfold CheckJs.odoTxt, CheckJs.odometer. by rewrite Ho.
  - intros s. unfold CheckJs.summarize.
    destruct (CheckJs.line1 item) as [l1|]; simpl; [|done].
    destruct (CheckJs.itemUrl item) as [url|]; simpl; [|done].
    destruct (ToString url) as [u|]; simpl; [|done].
    intros [= <-]. by exists l1, u.
Qed.

End Summary.

(** *** Coercion of a text *)

Section CoercionOfText.


Lemma strip_extraneous (s : jsstring) :
  Forall extraneous s → CheckJs.replace_non_numeric s = [].
Proof.
  unfold CheckJs.replace_non_numeric.
  induction 1 as [|c s Hc _ IH]; simpl; [done|].
  unfold extraneous in Hc. by rewrite Hc.
Qed.


Lemma strip_app (s t : jsstring) :
  CheckJs.replace_non_numeric (s ++ t)
  = CheckJs.replace_non_numeric s ++ CheckJs.replace_non_numeric t.
Proof. apply List.filter_app. Qed.


















(** A digit or a point is no white space, no sign, no [I] and no [e]. *)
Lemma kept_head (c : N) :
  is_digit c || (c =? 46)%N = true →
  is_space c = false ∧ (c =? 45)%N = false ∧ (c =? 43)%N = false
  ∧ (73 =? c)%N = false ∧ (c =? 101)%N = false ∧ (c =? 69)%N = false.
Proof.
  unfold is_digit, is_space.
  rewrite !orb_true_iff, !andb_true_iff, !orb_false_iff, !andb_false_iff,
    !N.leb_le, !N.leb_gt, !N.eqb_eq, !N.eqb_neq.
  lia.
Qed.

Lemma starts_with_Infinity (c : N) (s : jsstring) :
  (73 =? c)%N = false → starts_with (js "Infinity") (c :: s) = false.
Proof.
  intros Hc. replace (js "Infinity") with (73%N :: js "nfinity") by by vm_compute.
  change (starts_with (73%N :: js "nfinity") (c :: s))
    with ((73 =? c)%N && starts_with (js "nfinity") s).
  by rewrite Hc.
Qed.

Lemma parseFloat_kept_head (c : N) (s : jsstring) :
  is_digit c || (c =? 46)%N = true →
  parseFloat (c :: s) =
    let '(ip, r1) := span_digits (c :: s) in
    let '(fp, r2) :=
      match r1 with
      | c :: t => if (c =? 46)%N then span_digits t else ([], r1)
      | [] => ([], r1)
      end in
    match ip ++ fp with
    | [] => NaN
    | ds => nearest_double false (dec_value ds)
              (exponent_part r2 - Z.of_nat (length fp))
    end.
Proof.
  intros (Hspace & Hminus & Hplus & HI & _)%kept_head.
  unfold parseFloat. cbn [trim_start]. rewrite Hspace.
  unfold read_sign. rewrite Hminus, Hplus.
  by rewrite starts_with_Infinity.
Qed.














End CoercionOfText.

(** ** The theorems at concrete records *)

Section Examples.
Import Reference.

(** The built-ins of the model on inputs whose JavaScript results are known:
    [parseFloat] reads the longest numeric prefix, 0.1 is the double
    [0x1999999999999A * 2^-56], [Math.round] sends a tie up, and the patterns
    of [extractRangeKm] need their word boundaries. *)
Lemma builtins_evaluate :
  parseFloat (js "  -12.50e1xyz") = nearest_double true 125 0
  ∧ parseFloat (js "1.2.3") = nearest_double false 12 (-1)
  ∧ parseFloat (js ".5") = nearest_double false 5 (-1)
  ∧ parseFloat (js "0.1") = S754_finite false 7205759403792794 (-56)
  ∧ parseFloat (js "5.") = num 5
  ∧ parseFloat (js ".") = NaN
  ∧ parseFloat (js "abc") = NaN
  ∧ parseFloat (js "-Infinity") = S754_infinity true
  ∧ parseFloat (js "1e999") = Infinity
  ∧ Math_round (nearest_double false 25 (-1)) = num 3
  ∧ Math_round (nearest_double true 25 (-1)) = num (-2)
  ∧ Math_round (nearest_double true 4 (-1)) = S754_zero true
  ∧ RegExp_test CheckJs.re_long_range (js "model 3 lr awd") = true
  ∧ RegExp_test CheckJs.re_long_range (js "xlr") = false
  ∧ RegExp_test CheckJs.re_long_range (js "long   range") = true
  ∧ RegExp_test CheckJs.re_standard_range (js "rear- -wheel drive") = true
  ∧ RegExp_test CheckJs.re_standard_range (js "rearwheels") = false
  ∧ RegExp_test CheckJs.re_http (js "see http://x") = false
  ∧ trim (js "  Tesla Model 3  ") = js "Tesla Model 3".
Proof. by vm_compute. Qed.

(** The comparisons of the filter just below and just above the thresholds:
    28999.99 is below 29000 and 600.01 is above 600. *)
Lemma near_thresholds :
  lt (nearest_double false 2899999 (-2)) CheckJs.TARGET_PRICE_EUR = true
  ∧ gt (nearest_double false 60001 (-2)) CheckJs.MIN_RANGE_KM = true
  ∧ lt (nearest_double false 2900001 (-2)) CheckJs.TARGET_PRICE_EUR = false
  ∧ gt (nearest_double false 59999 (-2)) CheckJs.MIN_RANGE_KM = false
  ∧ gt Infinity CheckJs.MIN_RANGE_KM = true.
Proof. by vm_compute. Qed.

(** C1 at a record priced 25000 with range 650: it is a match. *)
Lemma filter_accepts_witness :
  CheckJs.filter_item listing
  = Ok (Some {| CheckJs.item := listing;
                CheckJs.price := num 25000; CheckJs.rangeKm := num 650 |}).
Proof.
  apply (proj1 (filter_accepts_iff listing) _).
  exists (num 25000), (num 650). by vm_compute.
Defined.



(** C3 at the text 612 km: the parsed number is finite. *)
Lemma coercion_witness :
  CheckJs.numberFrom (str "612 km") = Some (num 612) ∧ isFinite (num 612) = true.
Proof.
  destruct (coercion_of_candidates VNull) as (_ & _ & Hfin & _).
  split; [by vm_compute|].
  apply (Hfin (js "612 km")). by vm_compute.
Defined.

(** C3 as stated fails on a numeric candidate that is not finite: the JSON
    text 1e999 parses to Infinity, which is extracted as the price and as the
    range; NaN is passed through as well. *)
Lemma coercion_passes_infinity :
  CheckJs.extractPrice (obj [("Price", VNum Infinity)]) = Some Infinity
  ∧ CheckJs.extractRangeKm (obj [("Range", VNum Infinity)]) = Ok (Some Infinity)
  ∧ CheckJs.numberFrom (VNum NaN) = Some NaN
  ∧ isFinite Infinity = false ∧ isFinite NaN = false.
Proof. by vm_compute. Qed.

(** C4 at a record whose third price candidate and sixth range candidate are
    the first that coerce. *)
Lemma first_candidate_witness :
  CheckJs.extractPrice two_prices = Some (num 27000)
  ∧ CheckJs.extractRangeKm two_prices = Ok (Some (num 612)).
Proof.
  destruct (first_coercible_candidate_wins two_prices) as (_ & Hprice & Hrange).
  split.
  - apply (Hprice [js "PurchasePrice"; js "Price"] (js "TotalPrice")
             [js "TotalPriceAndFees"]); [done | repeat constructor | by vm_compute].
  - apply (Hrange (take 5 CheckJs.range_paths) [js "Spec"; js "WLTPRange"]
             (drop 6 CheckJs.range_paths));
      [done | repeat constructor | by vm_compute].
Defined.

(** C4 as stated fails on the count: four candidates are flat and five are
    nested, not five and four. *)
Lemma range_paths_flat_nested :
  ¬ (length (List.filter is_flat CheckJs.range_paths) = 5
     ∧ length (List.filter is_nested CheckJs.range_paths) = 4).
Proof. by vm_compute; intros [? _]. Qed.

(** C5 at a record with a long-range label and no range field. *)
Lemma range_fallback_witness :
  CheckJs.extractRangeKm long_range = Ok (Some (num 620))
  ∧ Part000.extractRangeKm long_range = None.
Proof.
  destruct (range_fallback_on_trim long_range (js "Model 3 Long Range AWD"))
    as (_ & Hcheck & Hpart); [repeat constructor | done | ].
  split; [|exact Hpart]. rewrite Hcheck. by vm_compute.
Defined.

(** C5 as stated fails twice: a label that is no text raises a TypeError in
    src/check.js, and the variant part_000 returns [null] on a long-range
    label, where src/check.js returns 620. *)
Lemma range_fallback_raises_or_absent :
  CheckJs.extractRangeKm (obj [("TrimName", VNum (num 3))]) = Throw TypeError
  ∧ Part000.extractRangeKm long_range = None
  ∧ CheckJs.extractRangeKm long_range = Ok (Some (num 620)).
Proof. by vm_compute. Qed.

(** C6 at a record without a link and without an identifier. *)
Lemma itemUrl_fallback_witness :
  CheckJs.itemUrl long_range
  = Ok (str "https://www.tesla.com/de_DE/inventory/used/m3?arrangeby=plh&range=0#result")
  ∧ Part000.itemUrl long_range
  = Ok (str "https://www.tesla.com/de_DE/inventory/used/m3?arrangeby=plh&range=0#result").
Proof. apply (itemUrl_no_href_no_vin long_range); by vm_compute. Defined.

(** C7 at a record with a relative link. *)
Lemma itemUrl_href_witness :
  CheckJs.itemUrl relative_link
  = Ok (str "https://www.tesla.com/de_DE/m3/order/5YJ3E7EB").
Proof.
  destruct (itemUrl_href relative_link (str "/de_DE/m3/order/5YJ3E7EB")
              (js "/de_DE/m3/order/5YJ3E7EB")) as (Hrel & _);
    [by vm_compute..|].
  apply Hrel. by vm_compute.
Defined.

(** C7 as stated fails on a link with another scheme than http and https, or
    with the scheme in upper case: the origin is put before it. *)
Lemma itemUrl_other_scheme :
  starts_with_scheme (js "ftp://ftp.tesla.com/m3.pdf") = true
  ∧ CheckJs.itemUrl (obj [("PrcUrl", str "ftp://ftp.tesla.com/m3.pdf")])
    = Ok (str "https://www.tesla.comftp://ftp.tesla.com/m3.pdf")
  ∧ starts_with_scheme (js "HTTPS://www.tesla.com/m3") = true
  ∧ CheckJs.itemUrl (obj [("PrcUrl", str "HTTPS://www.tesla.com/m3")])
    = Ok (str "https://www.tesla.comHTTPS://www.tesla.com/m3").
Proof. by vm_compute. Qed.

(** C8 at a record with a mileage text. *)
Lemma odometer_segment_witness :
  CheckJs.odoTxt with_mileage = js " " ++ CheckJs.bullet ++ js " 45200 km".
Proof.
  destruct (odometer_segment with_mileage (num 25000) (num 650))
    as (_ & Hshown & _).
  rewrite (Hshown (num 45200)); by vm_compute.
Defined.

(** C8 as stated fails on an odometer of zero, which is present and numeric
    and omitted, and on a record whose Odometer does not coerce while its
    Mileage does: only the first field that is set is coerced. *)
Lemma odometer_segment_omitted :
  CheckJs.numberFrom (obj [("Odometer", VNum (num 0))] ?."Odometer") = Some (num 0)
  ∧ CheckJs.odoTxt (obj [("Odometer", VNum (num 0))]) = []
  ∧ CheckJs.numberFrom
      (obj [("Odometer", str "n/a"); ("Mileage", VNum (num 52000))] ?."Mileage")
    = Some (num 52000)
  ∧ CheckJs.odoTxt (obj [("Odometer", str "n/a"); ("Mileage", VNum (num 52000))])
    = [].
Proof. by vm_compute. Qed.

(** C9 at a body with the key in upper case. *)
Lemma results_witness :
  CheckJs.results_of (obj [("Results", VArr [listing])]) = VArr [listing]
  ∧ CheckJs.find_matches (obj [("total", VNum (num 0))]) = Ok [].
Proof.
  destruct (results_from_either_key (obj [("Results", VArr [listing])]))
    as (_ & Hupper & _).
  destruct (results_from_either_key (obj [("total", VNum (num 0))]))
    as (_ & _ & Hnone).
  split.
  - by apply Hupper.
  - by apply Hnone.
Defined.

End Examples.

(** ** Further properties of the extractor *)

Section Paths.

Lemma pick_falsy (v : value) (k : jsstring) (q : list jsstring) :
  truthy v = false → CheckJs.pick v (k :: q) = VUndefined.
Proof.
  intros Hv. unfold CheckJs.pick. simpl. rewrite Hv.
  induction q as [|k' q IH]; [done|]. simpl. exact IH.
Qed.

End Paths.

Section Frame.
Context `{Runtime}.

Lemma for_of_return_ext {A B : Type} (f g : A → option B) (l : list A) :
  Forall (fun x => f x = g x) l → for_of_return f l = for_of_return g l.
Proof.
  induction 1 as [|x l Hx _ IH]; simpl; [done|]. by rewrite Hx, IH.
Qed.

Lemma get_insert_ne (m : gmap jsstring value) (k k' : jsstring) (v : value) :
  k ≠ k' → get (VObj (<[k:=v]> m)) k' = get (VObj m) k'.
Proof. intros Hne. simpl. by rewrite lookup_insert_ne. Qed.

Lemma pick_insert_ne (m : gmap jsstring value) (k k' : jsstring) (v : value)
    (q : list jsstring) :
  k ≠ k' →
  CheckJs.pick (VObj (<[k:=v]> m)) (k' :: q) = CheckJs.pick (VObj m) (k' :: q).
Proof.
  intros Hne. unfold CheckJs.pick. cbn [fold_left truthy].
  by rewrite get_insert_ne.
Qed.

(** X2: a field that the extractor does not name has no influence: setting
    it, to any value, changes neither the extracted price nor the extracted
    range of a record. *)
Theorem extraction_ignores_other_fields (m : gmap jsstring value)
    (k : jsstring) (v : value) :
  k ∉ extraction_fields →
  CheckJs.extractPrice (VObj (<[k:=v]> m)) = CheckJs.extractPrice (VObj m)
  ∧ CheckJs.extractRangeKm (VObj (<[k:=v]> m)) = CheckJs.extractRangeKm (VObj m).
Proof.
  intros Hk.
  assert (Hne : Forall (fun k' => k ≠ k') extraction_fields).
  { apply Forall_forall. intros k' Hk' ->. done. }
  unfold extraction_fields, CheckJs.price_keys in Hne.
  cbn [app] in Hne.
  repeat match type of Hne with
         | Forall _ (_ :: _) => apply Forall_cons in Hne as [? Hne]
         end.
  split.
  - unfold CheckJs.extractPrice. apply for_of_return_ext.
    unfold CheckJs.price_keys.
    repeat constructor; cbn [opt_get]; by rewrite get_insert_ne.
  - unfold CheckJs.extractRangeKm, CheckJs.range_from_trim.
    rewrite (for_of_return_ext
               (fun p => CheckJs.numberFrom (CheckJs.pick (VObj (<[k:=v]> m)) p))
               (fun p => CheckJs.numberFrom (CheckJs.pick (VObj m) p))).
    + cbn [opt_get]. by rewrite !get_insert_ne.
    + unfold CheckJs.range_paths.
      repeat constructor; by rewrite pick_insert_ne.
Qed.

End Frame.

Section NotARecord.
Context `{Runtime}.

Lemma pick_not_object (item : value) (p : list jsstring) :
  (∀ m, item ≠ VObj m) → p ≠ [] → CheckJs.pick item p = VUndefined.
Proof.
  intros Hitem Hp. destruct p as [|k q]; [done|].
  destruct (truthy item) eqn:Htruthy; [|by apply pick_falsy].
  unfold CheckJs.pick. cbn [fold_left]. rewrite Htruthy.
  replace (get item k) with VUndefined.
  - destruct q as [|k' q]; [done|]. by apply (pick_falsy VUndefined).
  - destruct item; try done. by destruct (Hitem m).
Qed.

Lemma opt_get_not_object (item : value) (k : jsstring) :
  (∀ m, item ≠ VObj m) → opt_get item k = VUndefined.
Proof. intros Hitem. destruct item; try done. by destruct (Hitem m). Qed.

(** X3: an entry of the results that is no object ([null], a number, a text,
    an array) has no price and no range in either variant, is skipped by the
    filter without an exception, and resolves to the referer page with the
    fragment [result].  The runtime is taken to lower-case the empty text to
    itself. *)
Theorem non_object_entry_is_skipped (item : value) :
  toLowerCase [] = [] →
  (∀ m, item ≠ VObj m) →
  CheckJs.extractPrice item = None
  ∧ CheckJs.extractRangeKm item = Ok None
  ∧ CheckJs.filter_item item = Ok None
  ∧ Part000.extractRangeKm item = None
  ∧ Part000.filter_item item = None
  ∧ CheckJs.itemUrl item = Ok (VStr (CheckJs.REFERER_URL ++ js "#result")).
Proof.
  intros Hlower Hitem.
  assert (Hprice : CheckJs.extractPrice item = None).
  { apply for_of_return_none. apply Forall_forall. intros k _.
    by rewrite opt_get_not_object. }
  assert (Hloop : for_of_return
            (fun p => CheckJs.numberFrom (CheckJs.pick item p))
            CheckJs.range_paths = None).
  { apply for_of_return_none. unfold CheckJs.range_paths.
    repeat constructor; by rewrite pick_not_object. }
  assert (Hrange : CheckJs.extractRangeKm item = Ok None).
  { unfold CheckJs.extractRangeKm. rewrite Hloop.
    unfold CheckJs.range_from_trim. rewrite !opt_get_not_object by done.
    cbn. rewrite Hlower. done. }
  split_and!; try done.
  - unfold CheckJs.filter_item. by rewrite Hprice, Hrange.
  - unfold Part000.filter_item.
    change Part000.extractPrice with CheckJs.extractPrice. by rewrite Hprice.
  - unfold CheckJs.itemUrl. by rewrite !opt_get_not_object.
Qed.

End NotARecord.

Section SignOfText.

Lemma signbit_binary_round_aux (mz ez : Z) (l : location) :
  signbit (binary_round_aux 53 1024 false mz ez l) = false.
Proof.
  unfold binary_round_aux.
  destruct (shr_fexp 53 1024 mz ez l) as [mrs e].
  destruct (shr_fexp 53 1024 _ e loc_Exact) as [mrs' e'].
  destruct (shr_m mrs'); [done| |done].
  by destruct (e' <=? 1024 - 53)%Z.
Qed.

Lemma signbit_nearest_double (m e10 : Z) :
  signbit (nearest_double false m e10) = false.
Proof.
  unfold nearest_double. destruct m as [|p|p]; [done| |done].
  destruct e10 as [|k|k].
  - unfold binary_normalize. rewrite Z.pow_0_r, Z.mul_1_r.
    unfold binary_round. destruct (shl_align _ _ _).
    apply signbit_binary_round_aux.
  - unfold binary_normalize.
    destruct (Z.pos p * 10 ^ Z.pos k)%Z as [|q|q] eqn:Hq; [done| |lia].
    unfold binary_round. destruct (shl_align _ _ _).
    apply signbit_binary_round_aux.
  - unfold SFdiv. destruct (SFdiv_core_binary _ _ _ _ _ _) as [[mz ez] lz].
    apply signbit_binary_round_aux.
Qed.

(** X4: a code unit that is neither a digit nor a point has no influence on
    the coercion of a text, wherever it stands: a minus sign, the letter of
    an exponent and a percent sign are dropped like a currency symbol. *)
Theorem numberFrom_ignores_extraneous (s1 s2 : jsstring) (c : N) :
  extraneous c →
  CheckJs.numberFrom (VStr (s1 ++ c :: s2)) = CheckJs.numberFrom (VStr (s1 ++ s2)).
Proof.
  intros Hc. unfold CheckJs.numberFrom.
  change (c :: s2) with ([c] ++ s2).
  rewrite !strip_app, (strip_extraneous [c]) by by constructor.
  done.
Qed.

(** X5: the number coerced from a text is never negative and never [-0]:
    the sign of the text is lost. *)
Theorem numberFrom_text_not_negative (s : jsstring) (n : number) :
  CheckJs.numberFrom (VStr s) = Some n → signbit n = false.
Proof.
  unfold CheckJs.numberFrom.
  destruct (isFinite _); [|done]. intros [= <-].
  destruct (CheckJs.replace_non_numeric s) as [|c t] eqn:Hstrip; [done|].
  assert (Hc : is_digit c || (c =? 46)%N = true).
  { assert (Hin : In c (CheckJs.replace_non_numeric s)) by (rewrite Hstrip; by left).
    unfold CheckJs.replace_non_numeric, CheckJs.not_digit_or_point in Hin.
    apply List.filter_In in Hin as [_ Hin]. by rewrite negb_involutive in Hin. }
  rewrite parseFloat_kept_head by done.
  destruct (span_digits (c :: t)) as [ip r1].
  destruct (match r1 with
            | c0 :: t0 => if (c0 =? 46)%N then span_digits t0 else ([], r1)
            | [] => ([], r1)
            end) as [fp r2].
  destruct (ip ++ fp); [done|]. apply signbit_nearest_double.
Qed.

End SignOfText.

(** ** Further properties of the filter *)

Section FilterMore.
Context `{Runtime}.

Lemma estimates_against_threshold :
  gt (num 620) CheckJs.MIN_RANGE_KM = true
  ∧ gt (num 560) CheckJs.MIN_RANGE_KM = false
  ∧ gt (num 490) CheckJs.MIN_RANGE_KM = false.
Proof. by vm_compute. Qed.

(** X6: of the three estimates of the trim fallback only the long-range one
    passes the filter.  A record on which none of the nine range candidates
    coerces is a match exactly when its price is below the threshold and its
    label is a text that matches the long-range pattern; its range is then
    620. *)
Theorem match_by_estimate_is_long_range (it : value) :
  Forall (fun p => CheckJs.numberFrom (CheckJs.pick it p) = None)
    CheckJs.range_paths →
  ∀ m, CheckJs.filter_item it = Ok (Some m) ↔
    ∃ p label,
      CheckJs.extractPrice it = Some p
      ∧ lt p CheckJs.TARGET_PRICE_EUR = true
      ∧ it?."TrimName" ||| it?."Trim" ||| it?."SpecName" ||| VStr [] = VStr label
      ∧ RegExp_test CheckJs.re_long_range (toLowerCase label) = true
      ∧ m = {| CheckJs.item := it; CheckJs.price := p; CheckJs.rangeKm := num 620 |}.
Proof.
  intros Hnone%for_of_return_none m.
  destruct estimates_against_threshold as (H620 & H560 & H490).
  unfold CheckJs.filter_item, CheckJs.extractRangeKm, CheckJs.range_from_trim.
  rewrite Hnone.
  destruct (it?."TrimName" ||| it?."Trim" ||| it?."SpecName" ||| VStr [])
    as [| | | |label| |] eqn:Hlabel; cbn [call_toLowerCase mbind result_bind];
    try (split; [done | by intros (? & ? & _ & _ & ? & _)]).
  destruct (CheckJs.extractPrice it) as [p|] eqn:Hp.
  - destruct (RegExp_test CheckJs.re_long_range (toLowerCase label)) eqn:Hlong.
    + cbn [mbind result_bind]. rewrite H620, andb_true_r.
      destruct (lt p CheckJs.TARGET_PRICE_EUR) eqn:Hlt; split.
      * intros [= <-]. by exists p, label.
      * by intros (? & ? & [= <-] & _ & [= <-] & _ & ->).
      * done.
      * intros (? & ? & [= <-] & ? & _). congruence.
    + split; [|intros (? & ? & _ & _ & [= <-] & ? & _); congruence].
      destruct (RegExp_test CheckJs.re_performance (toLowerCase label));
        [|destruct (RegExp_test CheckJs.re_standard_range (toLowerCase label))];
        cbn [mbind result_bind]; rewrite ?H560, ?H490, ?andb_false_r; done.
  - split; [|by intros (? & ? & ? & _)].
    by repeat (destruct (RegExp_test _ _); cbn [mbind result_bind]).
Qed.

(** X7: what the earlier variant accepts, src/check.js accepts too, with the
    same price and range: the fallback on the label only adds matches. *)
Theorem part000_match_is_match (it : value) (m : Part000.Match) :
  Part000.filter_item it = Some m →
  CheckJs.filter_item it =
    Ok (Some {| CheckJs.item := Part000.item m;
                CheckJs.price := Part000.price m;
                CheckJs.rangeKm := Part000.rangeKm m |}).
Proof.
  unfold Part000.filter_item, CheckJs.filter_item, CheckJs.extractRangeKm.
  change Part000.extractPrice with CheckJs.extractPrice.
  unfold Part000.extractRangeKm.
  change Part000.range_paths with CheckJs.range_paths.
  change Part000.numberFrom with CheckJs.numberFrom.
  change Part000.pick with CheckJs.pick.
  change CheckJs.TARGET_PRICE_EUR with (num 29000).
  change CheckJs.MIN_RANGE_KM with (num 600).
  destruct (CheckJs.extractPrice it) as [p|]; [|done].
  destruct (for_of_return _ CheckJs.range_paths) as [r|]; [|done].
  cbn [mbind result_bind].
  destruct (lt p (num 29000) && gt r (num 600)); [|done].
  by intros [= <-].
Qed.

End FilterMore.

(** ** Further properties of the loop over the results *)

Section Loop.
Context `{Runtime}.

Lemma collect_ok (items : list value) (acc ms : list CheckJs.Match) :
  CheckJs.collect items acc = Ok ms →
  ms = acc ++ omap accepted items
  ∧ Forall (fun it => ∃ o, CheckJs.filter_item it = Ok o) items.
Proof.
  revert acc. induction items as [|it items IH]; intros acc; simpl.
  - intros [= <-]. by rewrite app_nil_r.
  - unfold accepted at 1.
    destruct (CheckJs.filter_item it) as [o|e] eqn:Hit; simpl; [|done].
    intros [-> Hall]%IH. split; [|constructor; by eauto].
    destruct o; simpl; [|done]. by rewrite <- app_assoc.
Qed.

Lemma collect_throws (items : list value) (acc : list CheckJs.Match) (it : value)
    (e : exn) :
  it ∈ items → CheckJs.filter_item it = Throw e →
  CheckJs.collect items acc = Throw TypeError.
Proof.
  intros Hin Hit. revert acc.
  induction Hin as [it items|it it' items _ IH]; intros acc; simpl.
  - rewrite Hit. simpl. by destruct e.
  - destruct (CheckJs.filter_item it') as [o|[]]; simpl; [apply IH; done|done].
Qed.

Lemma accepted_item (it : value) (m : CheckJs.Match) :
  accepted it = Some m →
  CheckJs.item m = it
  ∧ CheckJs.extractPrice it = Some (CheckJs.price m)
  ∧ CheckJs.extractRangeKm it = Ok (Some (CheckJs.rangeKm m))
  ∧ lt (CheckJs.price m) CheckJs.TARGET_PRICE_EUR = true
  ∧ gt (CheckJs.rangeKm m) CheckJs.MIN_RANGE_KM = true.
Proof.
  unfold accepted, CheckJs.filter_item.
  destruct (CheckJs.extractRangeKm it) as [[r|]|e]; simpl; try done.
  - destruct (CheckJs.extractPrice it) as [p|]; [|done].
    destruct (lt p _) eqn:Hlt, (gt r _) eqn:Hgt; simpl; try done.
    by intros [= <-].
  - by destruct (CheckJs.extractPrice it).
Qed.

Lemma accepted_sublist (items : list value) :
  sublist (CheckJs.item <$> omap accepted items) items.
Proof.
  induction items as [|it items IH]; simpl; [constructor|].
  destruct (accepted it) as [m|] eqn:Hm; simpl.
  - apply accepted_item in Hm as [-> _]. by constructor.
  - by constructor.
Qed.

(** X8: when the run gets through the results, the matches are the records
    that pass the filter, each once, in the order of the results: their
    records form a sublist of the results, there are no more matches than
    results, and each match carries the price and the range extracted from
    its record, below and above the thresholds. *)
Theorem matches_follow_results (data : value) (items : list value)
    (ms : list CheckJs.Match) :
  CheckJs.results_of data = VArr items →
  CheckJs.find_matches data = Ok ms →
  ms = omap accepted items
  ∧ sublist (CheckJs.item <$> ms) items
  ∧ length ms ≤ length items
  ∧ Forall (fun m =>
        CheckJs.extractPrice (CheckJs.item m) = Some (CheckJs.price m)
        ∧ CheckJs.extractRangeKm (CheckJs.item m) = Ok (Some (CheckJs.rangeKm m))
        ∧ lt (CheckJs.price m) CheckJs.TARGET_PRICE_EUR = true
        ∧ gt (CheckJs.rangeKm m) CheckJs.MIN_RANGE_KM = true) ms.
Proof.
  intros Hres. unfold CheckJs.find_matches. rewrite Hres. simpl.
  intros [-> _]%collect_ok. simpl.
  split_and!; [done|apply accepted_sublist| |].
  - rewrite <- (length_fmap CheckJs.item).
    apply sublist_length, accepted_sublist.
  - apply Forall_forall. intros m (it & _ & Hm)%list_elem_of_omap.
    apply accepted_item in Hm as (<- & ? & ? & ? & ?). done.
Qed.

(** X9: one record on which none of the nine range candidates coerces and
    whose label is set to something that is no text makes the whole run
    raise a TypeError, wherever it stands among the results: the matches
    found before it are lost with it. *)
Theorem one_bad_label_fails_the_run (data : value) (items : list value)
    (it : value) :
  CheckJs.results_of data = VArr items →
  it ∈ items →
  Forall (fun p => CheckJs.numberFrom (CheckJs.pick it p) = None)
    CheckJs.range_paths →
  (∀ label, it?."TrimName" ||| it?."Trim" ||| it?."SpecName" ||| VStr []
            ≠ VStr label) →
  CheckJs.find_matches data = Throw TypeError.
Proof.
  intros Hres Hin Hnone%for_of_return_none Hlabel.
  unfold CheckJs.find_matches. rewrite Hres. simpl.
  apply (collect_throws items [] it TypeError); [done|].
  unfold CheckJs.filter_item, CheckJs.extractRangeKm, CheckJs.range_from_trim.
  rewrite Hnone.
  destruct (it?."TrimName" ||| it?."Trim" ||| it?."SpecName" ||| VStr [])
    as [| | | |label| |] eqn:Heq; try done.
  by destruct (Hlabel label).
Qed.

End Loop.

(** ** Further properties of the detail URL and of the summary *)

Section UrlMore.
Context `{Runtime}.

Lemma origin_is_http (s : jsstring) :
  starts_with_http (js "https://www.tesla.com" ++ s) = true.
Proof.
  unfold starts_with_http. apply orb_true_iff. right.
  apply starts_with_prefix. by exists (js "//www.tesla.com" ++ s).
Qed.

Lemma referer_is_http (s : jsstring) :
  starts_with_http (CheckJs.REFERER_URL ++ s) = true.
Proof.
  unfold starts_with_http. apply orb_true_iff. right.
  apply starts_with_prefix.
  by exists (js "//www.tesla.com/de_DE/inventory/used/m3?arrangeby=plh&range=0" ++ s).
Qed.

(** X10: whenever [itemUrl] returns, the text of what it returns starts with
    [http:] or [https:]: the link line of a message is never a relative
    path.  Both variants. *)
Theorem itemUrl_is_absolute (item url : value) :
  CheckJs.itemUrl item = Ok url →
  Part000.itemUrl item = Ok url
  ∧ ∃ s, ToString url = Ok s ∧ starts_with_http s = true.
Proof.
  intros Hurl. split; [exact Hurl|]. revert Hurl. unfold CheckJs.itemUrl.
  destruct (truthy _) eqn:Htruthy.
  - destruct (ToString _) as [s|e] eqn:Hs; simpl; [|done].
    rewrite re_http_test.
    destruct (starts_with_http s) eqn:Hhttp; intros [= <-].
    + by exists s.
    + exists (js "https://www.tesla.com" ++ s). split; [done|].
      apply origin_is_http.
  - destruct (ToString _) as [s|e]; simpl; [|done]. intros [= <-].
    exists (CheckJs.REFERER_URL ++ js "#" ++ s). split; [done|].
    apply referer_is_http.
Qed.

(** X11: without a link field, the first identifier field that is set, in
    the order VIN, Vin, vin, becomes the fragment of the referer page when it
    is a text.  Both variants. *)
Theorem itemUrl_vin_fragment (item : value) (vin : jsstring) :
  truthy (item?."PrcUrl" ||| item?."PermaLink" ||| item?."WebUrl"
          ||| item?."permalink") = false →
  item?."VIN" ||| item?."Vin" ||| item?."vin" ||| VStr [] = VStr vin →
  vin ≠ [] →
  CheckJs.itemUrl item = Ok (VStr (CheckJs.REFERER_URL ++ js "#" ++ vin))
  ∧ Part000.itemUrl item = Ok (VStr (CheckJs.REFERER_URL ++ js "#" ++ vin)).
Proof.
  intros Hhref Hvin Hne.
  unfold CheckJs.itemUrl, Part000.itemUrl. rewrite Hhref, Hvin.
  rewrite or_truthy; [done|].
  simpl. by destruct vin.
Qed.

End UrlMore.

Section Title.
Context `{Runtime}.

Lemma trim_start_suffix (s : jsstring) :
  ∃ ws, s = ws ++ trim_start s
    ∧ Forall (fun c => is_space c = true) ws
    ∧ match trim_start s with c :: _ => is_space c = false | [] => True end.
Proof.
  induction s as [|c s (ws & Hs & Hws & Hhead)]; simpl.
  - by exists [].
  - destruct (is_space c) eqn:Hc.
    + exists (c :: ws). split_and!; [by rewrite Hs at 1|by constructor|done].
    + by exists [].
Qed.

(** [s.trim()] is [s] without the white space at its two ends. *)
Lemma trim_middle (s : jsstring) :
  ∃ ws1 ws2, s = ws1 ++ trim s ++ ws2
    ∧ Forall (fun c => is_space c = true) ws1
    ∧ Forall (fun c => is_space c = true) ws2
    ∧ match trim s with c :: _ => is_space c = false | [] => True end
    ∧ match rev (trim s) with c :: _ => is_space c = false | [] => True end.
Proof.
  unfold trim.
  destruct (trim_start_suffix s) as (ws1 & Hs & Hws1 & Hhead).
  destruct (trim_start_suffix (rev (trim_start s))) as (ws2 & Hr & Hws2 & Hlast).
  set (t := trim_start (rev (trim_start s))) in *.
  assert (Hmid : trim_start s = rev t ++ rev ws2).
  { rewrite <- rev_app_distr, <- Hr. by rewrite rev_involutive. }
  exists ws1, (rev ws2). split_and!.
  - by rewrite <- Hmid.
  - done.
  - by apply Forall_rev.
  - rewrite Hmid in Hhead. destruct (rev t) as [|c u] eqn:Ht; [done|]. exact Hhead.
  - by rewrite rev_involutive.
Qed.

Lemma trim_keeps_car (rest : jsstring) :
  starts_with CheckJs.car (trim (CheckJs.car ++ rest)) = true
  ∧ match rev (trim (CheckJs.car ++ rest)) with
    | c :: _ => is_space c = false
    | [] => False
    end.
Proof.
  change (CheckJs.car ++ rest) with (55357%N :: 56983%N :: rest).
  destruct (trim_middle (55357%N :: 56983%N :: rest))
    as (ws1 & ws2 & Hs & Hws1 & Hws2 & _ & Hlast).
  revert Hs Hlast. generalize (trim (55357%N :: 56983%N :: rest)) as t.
  intros t Hs Hlast. destruct ws1 as [|w ws1].
  - destruct t as [|a [|b u]]; cbn [app] in Hs.
    + rewrite <- Hs in Hws2. by inversion Hws2.
    + injection Hs as <- Hs. rewrite <- Hs in Hws2. by inversion Hws2.
    + injection Hs as <- <- _. split; [done|].
      destruct (rev (55357%N :: 56983%N :: u)) eqn:Hrev; [|done].
      apply (f_equal length) in Hrev. rewrite length_rev in Hrev. done.
  - injection Hs as <- _. by inversion Hws1.
Qed.

(** X12: the title line of a summary starts with the car and has no white
    space at its end, whatever the year and the trim label are; with
    neither a year nor a label it is the car followed by [Tesla Model 3]. *)
Theorem title_line (item : value) :
  (∀ t, CheckJs.line1 item = Ok t →
     starts_with CheckJs.car t = true
     ∧ match rev t with c :: _ => is_space c = false | [] => False end)
  ∧ (truthy (item?."Year" ||| item?."year" ||| VStr []) = false →
     item?."TrimName" ||| item?."Trim" ||| item?."SpecName" ||| VStr [] = VStr [] →
     CheckJs.line1 item = Ok (CheckJs.car ++ js " Tesla Model 3")).
Proof.
  split.
  - intros t. unfold CheckJs.line1.
    destruct (if truthy _ then _ else _) as [y|e]; cbn [mbind result_bind];
      [|done].
    destruct (ToString _) as [l|e]; cbn [mbind result_bind]; [|done].
    intros Ht. assert (Heq : t = trim (CheckJs.car ++ js " " ++ y
                                       ++ js "Tesla Model 3 " ++ l))
      by congruence.
    rewrite Heq. apply trim_keeps_car.
  - intros Hyear Hlabel. unfold CheckJs.line1. rewrite Hyear, Hlabel. done.
Qed.

End Title.

Section PlainRecords.
Context `{Runtime}.

Lemma ToString_primitive (v : value) :
  primitive v = true → ∃ s, ToString v = Ok s.
Proof. destruct v; simpl; try done; by eauto. Qed.

Lemma or_primitive (a b : value) :
  primitive a = true → primitive b = true → primitive (a ||| b) = true.
Proof. unfold or. by destruct (truthy a). Qed.

Lemma opt_get_plain (m : gmap jsstring value) (k : jsstring) :
  map_Forall (fun _ v => primitive v = true) m →
  primitive (opt_get (VObj m) k) = true.
Proof.
  intros Hm. simpl. destruct (m !! k) as [v|] eqn:Hk; [|done].
  exact (Hm k v Hk).
Qed.

Lemma itemUrl_plain (m : gmap jsstring value) :
  map_Forall (fun _ v => primitive v = true) m →
  ∃ url, CheckJs.itemUrl (VObj m) = Ok url ∧ primitive url = true.
Proof.
  intros Hm. unfold CheckJs.itemUrl.
  set (href := _ ||| VObj m?."permalink").
  assert (Hhref : primitive href = true)
    by (repeat apply or_primitive; by apply opt_get_plain).
  destruct (truthy href).
  - destruct (ToString_primitive href Hhref) as [s ->]. simpl.
    destruct (RegExp_test _ s); by eauto.
  - set (vin := _ ||| VStr (js "result")).
    assert (Hvin : primitive vin = true)
      by (repeat apply or_primitive; by (apply opt_get_plain || done)).
    destruct (ToString_primitive vin Hvin) as [s ->]. simpl. by eauto.
Qed.

(** X13: a record all of whose fields are texts, numbers, booleans or
    [null] is always summarized: composing the message raises no exception,
    and the message is the title, the second line and the link, separated
    by line feeds. *)
Theorem summarize_of_plain_record (m : gmap jsstring value)
    (price rangeKm : number) :
  map_Forall (fun _ v => primitive v = true) m →
  ∃ title url link,
    CheckJs.line1 (VObj m) = Ok title
    ∧ CheckJs.itemUrl (VObj m) = Ok url
    ∧ ToString url = Ok link
    ∧ CheckJs.summarize (VObj m) price rangeKm =
        Ok (title ++ [10%N] ++ CheckJs.line2 (VObj m) price rangeKm
            ++ [10%N] ++ link).
Proof.
  intros Hm.
  assert (Htitle : ∃ title, CheckJs.line1 (VObj m) = Ok title).
  { unfold CheckJs.line1. cbv zeta.
    assert (Hyear : primitive (VObj m?."Year" ||| VObj m?."year" ||| VStr [])
                    = true)
      by (repeat apply or_primitive; by (apply opt_get_plain || done)).
    assert (Hlabel : primitive (VObj m?."TrimName" ||| VObj m?."Trim"
                                ||| VObj m?."SpecName" ||| VStr []) = true)
      by (repeat apply or_primitive; by (apply opt_get_plain || done)).
    destruct (ToString_primitive _ Hyear) as [y ->].
    destruct (ToString_primitive _ Hlabel) as [l ->].
    destruct (truthy _); cbn [mbind result_bind]; by eauto. }
  destruct Htitle as [title Htitle].
  destruct (itemUrl_plain m Hm) as (url & Hurl & Hprim).
  destruct (ToString_primitive url Hprim) as [link Hlink].
  exists title, url, link. split_and!; try done.
  unfold CheckJs.summarize. rewrite Htitle, Hurl. simpl. by rewrite Hlink.
Qed.

End PlainRecords.

(** ** Properties of the requests and of the main function *)

Import Effects.

Section Cookies.

Lemma split_head (sep : N) (s : jsstring) :
  ∃ p ps, split sep s = p :: ps
    ∧ (p `prefix_of` s) ∧ (sep ∉ p) ∧ (sep ∉ s → p = s ∧ ps = []).
Proof.
  induction s as [|c s (p & ps & Hs & Hpre & Hp & Hall)]; simpl.
  - exists [], []. split_and!; [done|done|set_solver|done].
  - destruct (N.eqb_spec c sep) as [->|Hne].
    + exists [], (split sep s). split_and!; [done|by exists (sep :: s)|set_solver|].
      intros Hnot. destruct Hnot. by left.
    + rewrite Hs. exists (c :: p), ps. split_and!; [done| | |].
      * by apply prefix_cons.
      * apply not_elem_of_cons. by split.
      * intros [_ Hnot]%not_elem_of_cons. by destruct (Hall Hnot) as [-> ->].
Qed.

Lemma split_piece (sep : N) (p rest : jsstring) :
  sep ∉ p → split sep (p ++ sep :: rest) = p :: split sep rest.
Proof.
  intros Hp. induction p as [|c p IH]; simpl.
  - by rewrite N.eqb_refl.
  - destruct (N.eqb_spec c sep) as [->|Hne]; [set_solver|].
    rewrite IH by set_solver. done.
Qed.

Lemma split_cons_ne (sep c : N) (s : jsstring) :
  c ≠ sep →
  split sep (c :: s) =
    match split sep s with p :: ps => (c :: p) :: ps | [] => [[c]] end.
Proof. intros Hne. simpl. by destruct (N.eqb_spec c sep). Qed.

Lemma split_join (pieces : list jsstring) :
  Forall (fun p => 59%N ∉ p) pieces →
  split 59 (join (js "; ") pieces) =
    match pieces with
    | [] => [[]]
    | p :: ps => p :: ((fun q => 32%N :: q) <$> ps)
    end.
Proof.
  induction 1 as [|p pieces Hp Hpieces IH]; [done|].
  destruct pieces as [|q pieces].
  - simpl join. destruct (split_head 59 p) as (p' & ps & -> & _ & _ & Hall).
    by destruct (Hall Hp) as [-> ->].
  - change (join (js "; ") (p :: q :: pieces))
      with (p ++ 59%N :: 32%N :: join (js "; ") (q :: pieces)).
    rewrite split_piece, split_cons_ne, IH by done. done.
Qed.

Lemma split_first (sep : N) (s : jsstring) :
  ∃ p ps, split sep s = p :: ps ∧ (sep ∉ p)
    ∧ (s = p ∨ ∃ rest, s = p ++ sep :: rest).
Proof.
  induction s as [|c s (p & ps & Hs & Hp & Hshape)]; simpl.
  - exists [], []. split_and!; [done|set_solver|by left].
  - destruct (N.eqb_spec c sep) as [->|Hne].
    + exists [], (split sep s). split_and!; [done|set_solver|]. right. by exists s.
    + rewrite Hs. exists (c :: p), ps. split_and!; [done| |].
      * apply not_elem_of_cons. by split.
      * destruct Hshape as [->|[rest ->]]; [by left|right; by exists rest].
Qed.

(** X14: the cookie header keeps of every Set-Cookie line exactly the text
    before its first semicolon (the line is that text, or that text, a
    semicolon and the attributes), a line without a semicolon as a whole,
    and joins them so that splitting the header at the semicolons gives
    these texts back, each after the first behind one blank.  No Set-Cookie
    line, or a runtime without [getSetCookie], gives the empty text. *)
Theorem cookie_header_pairs (lines : list jsstring) :
  CheckMain.cookies_of None = []
  ∧ CheckMain.cookies_of (Some []) = []
  ∧ ∃ pairs,
      Forall2 (fun c p => (59%N ∉ p) ∧ (c = p ∨ ∃ rest, c = p ++ 59%N :: rest))
        lines pairs
      ∧ CheckMain.cookies_of (Some lines) = join (js "; ") pairs
      ∧ split 59 (CheckMain.cookies_of (Some lines)) =
          match pairs with
          | [] => [[]]
          | p :: ps => p :: ((fun q => 32%N :: q) <$> ps)
          end.
Proof.
  split; [done|]. split; [done|].
  exists ((fun c => default [] (head (split 59 c))) <$> lines).
  assert (Hpairs : Forall2
            (fun c p => (59%N ∉ p) ∧ (c = p ∨ ∃ rest, c = p ++ 59%N :: rest)) lines
            ((fun c => default [] (head (split 59 c))) <$> lines)).
  { induction lines as [|c lines IH]; simpl; constructor; [|done].
    by destruct (split_first 59 c) as (p & ps & -> & Hp & Hshape). }
  split_and!; [done|done|].
  unfold CheckMain.cookies_of. simpl default. apply split_join.
  clear -Hpairs. induction Hpairs as [|c p lines pairs [Hp _] _ IH];
    by constructor.
Qed.

End Cookies.

Section MainFunction.
Context `{Runtime}.
Variable w : world.

Lemma sent_app (t1 t2 : list event) : sent (t1 ++ t2) = sent t1 ++ sent t2.
Proof. apply omap_app. Qed.


(** One message that is not rejected: the request, and the complaint when
    the server refused it. *)
Lemma sendTelegram_answered (msg : message) (st : state) :
  (∀ reason, telegram w (posts st) ≠ SendFails reason) →
  CheckMain.sendTelegram w msg st =
    (Returns (),
     {| posts := S (posts st);
        trace := trace st ++ SendTelegram msg
                 :: match telegram w (posts st) with
                    | Refused body => [ErrorSendFailed body]
                    | _ => []
                    end |}).
Proof.
  intros Hanswer. unfold CheckMain.sendTelegram.
  destruct (telegram w (posts st)) as [|body|reason] eqn:Hpost.
  - done.
  - unfold emit. cbn. by rewrite <- app_assoc.
  - by destruct (Hanswer reason).
Qed.


Lemma attempt_with_response (set_cookie : option (list jsstring)) (status : Z)
    (text : option jsstring) (json : jsstring + value) (st : state) :
  referer w = RefererHeaders set_cookie →
  api w = ApiStatus status text json →
  CheckMain.attempt w st =
    let st' := {| posts := posts st;
                  trace := (trace st ++ [FetchReferer])
                           ++ [FetchApi (cookie_sent set_cookie)] |} in
    if (status =? 403)%Z then
      (CheckMain.sendTelegram w Blocked;;
       emit (ErrorBlocked (take 400 (default [] text)));;
       exit 1) st'
    else if negb ((200 <=? status)%Z && (status <=? 299)%Z) then
      (Throws (HttpError status), st')
    else
      match json with
      | inl reason => (Throws (Rejected reason), st')
      | inr data =>
          match CheckJs.find_matches data with
          | Throw e => (Throws (Raised e), st')
          | Ok [] => emit LogNoMatches st'
          | Ok matches => CheckMain.notify w matches st'
          end
      end.
Proof.
  intros Href Hapi. unfold CheckMain.attempt, CheckMain.getTeslaCookies.
  rewrite Href, Hapi. unfold cookie_sent.
  unfold mbind at 1, M_bind at 1. unfold mbind at 1, M_bind at 1.
  unfold emit at 1. unfold mret, M_ret. cbn [posts trace].
  unfold mbind at 1, M_bind at 1. unfold emit at 1. cbn [posts trace].
  cbv zeta.
  destruct (status =? 403)%Z; [done|].
  destruct (negb _); [done|].
  destruct json as [reason|data]; [done|].
  by destruct (CheckJs.find_matches data) as [[|m ms]|e].
Qed.


Lemma sendTelegram_cases (msg : message) (st : state) :
  ∃ r st', CheckMain.sendTelegram w msg st = (r, st')
    ∧ posts st' = S (posts st)
    ∧ sent (trace st') = sent (trace st) ++ [msg]
    ∧ ((r = Returns () ∧ ∀ reason, telegram w (posts st) ≠ SendFails reason)
       ∨ (∃ reason, r = Throws (Rejected reason)
                    ∧ telegram w (posts st) = SendFails reason)).
Proof.
  unfold CheckMain.sendTelegram.
  destruct (telegram w (posts st)) as [|body|reason] eqn:Hpost.
  - eexists _, _. split; [done|]. cbn [posts trace].
    split_and!; [done|by rewrite sent_app|by left].
  - eexists _, _. unfold emit. cbn [posts trace]. split; [done|].
    cbn [posts trace]. split_and!; [done| |by left].
    rewrite !sent_app. cbn. by rewrite app_nil_r.
  - eexists _, _. split; [done|]. cbn [posts trace].
    split_and!; [done|by rewrite sent_app|].
    right. by exists reason.
Qed.

(** The handler of the main function: the report is attempted once and the
    process ends with code 1, whatever the answer to the report is. *)
Lemma report_exits (err : error) (st : state) :
  ∃ st', CheckMain.report w err st = (Exits 1, st')
    ∧ posts st' = S (posts st)
    ∧ sent (trace st') = sent (trace st) ++ [CheckerFailed err].
Proof.
  unfold CheckMain.report.
  unfold mbind at 1, M_bind at 1. unfold emit at 1.
  unfold mbind at 1, M_bind at 1. unfold try_catch.
  set (st1 := {| posts := posts st; trace := trace st ++ [ErrorChecker err] |}).
  destruct (sendTelegram_cases (CheckerFailed err) st1)
    as (r & st' & -> & Hposts & Hsent & [[-> _]|(reason & -> & _)]).
  - exists st'. split_and!; [done|done|].
    rewrite Hsent. unfold st1. cbn [trace]. rewrite sent_app. cbn.
    by rewrite app_nil_r.
  - exists st'. split_and!; [done|done|].
    rewrite Hsent. unfold st1. cbn [trace]. rewrite sent_app. cbn.
    by rewrite app_nil_r.
Qed.

Lemma notify_cases (ms : list CheckJs.Match) (st : state) :
  ∃ r st' texts, CheckMain.notify w ms st = (r, st')
    ∧ posts st' = posts st + length texts
    ∧ sent (trace st') = sent (trace st) ++ (Summary <$> texts)
    ∧ ((r = Returns () ∧ summaries ms texts
        ∧ ∀ i, i < length ms → ∀ reason,
            telegram w (posts st + i) ≠ SendFails reason)
       ∨ (∃ err, r = Throws err)).
Proof.
  revert st. induction ms as [|m ms IH]; intros st.
  - exists (Returns ()), st, []. cbn. split_and!; [done|lia|by rewrite app_nil_r|].
    left. split_and!; [done|constructor|intros; lia].
  - cbn [CheckMain.notify].
    destruct (CheckJs.summarize _ _ _) as [t|e] eqn:Hm.
    + unfold mbind at 1, M_bind at 1.
      destruct (sendTelegram_cases (Summary t) st)
        as (r & st1 & -> & Hposts & Hsent & [[-> Hanswer]|(reason & -> & _)]).
      * unfold mbind at 1, M_bind at 1. unfold emit at 1.
        set (st2 := {| posts := posts st1; trace := trace st1 ++ [Sleep 400] |}).
        destruct (IH st2) as (r & st' & texts & -> & Hposts' & Hsent' & Hr).
        exists r, st', (t :: texts). split_and!; [done| | |].
        -- rewrite Hposts'. unfold st2. cbn [posts length]. lia.
        -- rewrite Hsent'. unfold st2. cbn [trace]. rewrite sent_app, Hsent.
           cbn. rewrite app_nil_r, <- app_assoc. done.
        -- destruct Hr as [(-> & Hsum & Hposts'')|[err ->]]; [left|right; by eauto].
           split_and!; [done|by constructor|].
           intros [|i] Hi reason.
           ++ rewrite Nat.add_0_r. apply Hanswer.
           ++ specialize (Hposts'' i ltac:(simpl in Hi; lia) reason).
              unfold st2 in Hposts''. cbn [posts] in Hposts''.
              rewrite Hposts in Hposts''.
              by replace (posts st + S i) with (S (posts st) + i) by lia.
      * exists (Throws (Rejected reason)), st1, [t].
        split_and!; [done|cbn; lia|done|right; by eauto].
    + exists (Throws (Raised e)), st, []. cbn.
      split_and!; [done|lia|by rewrite app_nil_r|right; by eauto].
Qed.

(** X16: the exit code is 0 only for such a run: the environment names the
    token and the chat, both requests were answered, the inventory with a
    success status and a body that parses, no record and no summary raised
    an exception and no message was rejected. *)
Theorem exit_code_zero (H0 : exit_code (CheckMain.run w) = 0%Z) :
  configured w
  ∧ ∃ set_cookie status text data ms texts,
      referer w = RefererHeaders set_cookie
      ∧ api w = ApiStatus status text (inr data)
      ∧ (200 <= status <= 299)%Z
      ∧ CheckJs.find_matches data = Ok ms
      ∧ summaries ms texts
      ∧ none_rejected w (length ms).
Proof.
  revert H0. unfold CheckMain.run, configured.
  destruct (truthy (TELEGRAM_TOKEN w)); [|done].
  destruct (truthy (TELEGRAM_CHAT_ID w)); [|done].
  cbn [negb orb]. unfold CheckMain.main, try_catch.
  assert (Hreport : ∀ err st, exit_code (CheckMain.report w err st) = 0%Z → False).
  { intros err st. by destruct (report_exits err st) as (st' & -> & _). }
  destruct (referer w) as [reason|set_cookie] eqn:Href.
  { unfold CheckMain.attempt, CheckMain.getTeslaCookies. rewrite Href.
    unfold mbind at 1, M_bind at 1. unfold mbind at 1, M_bind at 1.
    unfold emit at 1, throw. intros []%Hreport. }
  destruct (api w) as [reason|status text json] eqn:Hapi.
  { unfold CheckMain.attempt, CheckMain.getTeslaCookies. rewrite Href, Hapi.
    unfold mbind at 1, M_bind at 1. unfold mbind at 1, M_bind at 1.
    unfold emit at 1, mret, M_ret.
    unfold mbind at 1, M_bind at 1. unfold emit at 1, throw.
    intros []%Hreport. }
  rewrite (attempt_with_response set_cookie status text json) by done.
  cbv zeta. cbn [posts trace].
  match goal with
  | |- context [(Throws (HttpError status), ?s)] => set (st1 := s)
  end.
  destruct (Z.eqb_spec status 403) as [->|Hne].
  { unfold mbind at 1, M_bind at 1.
    destruct (sendTelegram_cases Blocked st1)
      as (r & st' & -> & _ & _ & [[-> _]|(reason & -> & _)]).
    - done.
    - intros []%Hreport. }
  destruct ((200 <=? status)%Z && (status <=? 299)%Z) eqn:Hok; cbn [negb];
    [|intros []%Hreport].
  apply andb_true_iff in Hok as [Hlo%Z.leb_le Hhi%Z.leb_le].
  destruct json as [reason|data]; [intros []%Hreport|].
  destruct (CheckJs.find_matches data) as [ms|e] eqn:Hfind;
    [|intros []%Hreport].
  intros Hzero. split; [done|].
  exists set_cookie, status, text, data, ms.
  destruct ms as [|m ms].
  - exists []. split_and!; try done; try lia;
      [constructor | intros i Hi; simpl in Hi; lia].
  - destruct (notify_cases (m :: ms) st1)
      as (r & st' & texts & Heq & _ & _ & Hr). rewrite Heq in Hzero.
    destruct Hr as [(-> & Hsum & Hposts)|[err ->]]; [|by apply Hreport in Hzero].
    exists texts. split_and!; try done; lia.
Qed.

(** The loop over the matches sends the summaries of the matches in their
    order, of all of them when it returns and of the first ones when a
    summary or a message fails. *)
Lemma notify_prefix (ms : list CheckJs.Match) (st : state) :
  ∃ r st' told texts, CheckMain.notify w ms st = (r, st')
    ∧ sent (trace st') = sent (trace st) ++ (Summary <$> texts)
    ∧ summaries told texts
    ∧ (told `prefix_of` ms)
    ∧ ((r = Returns () ∧ told = ms) ∨ (∃ err, r = Throws err)).
Proof.
  revert st. induction ms as [|m ms IH]; intros st.
  - exists (Returns ()), st, [], []. cbn.
    split_and!; [done|by rewrite app_nil_r|constructor|done|by left].
  - cbn [CheckMain.notify].
    destruct (CheckJs.summarize _ _ _) as [t|e] eqn:Hm.
    + unfold mbind at 1, M_bind at 1.
      destruct (sendTelegram_cases (Summary t) st)
        as (r & st1 & -> & _ & Hsent & [[-> _]|(reason & -> & _)]).
      * unfold mbind at 1, M_bind at 1. unfold emit at 1.
        set (st2 := {| posts := posts st1; trace := trace st1 ++ [Sleep 400] |}).
        destruct (IH st2) as (r & st' & told & texts & -> & Hsent' & Hsum & Hpre & Hr).
        exists r, st', (m :: told), (t :: texts). split_and!; [done| | | |].
        -- rewrite Hsent'. unfold st2. cbn [trace]. rewrite sent_app, Hsent.
           cbn. rewrite app_nil_r, <- app_assoc. done.
        -- by constructor.
        -- by apply prefix_cons.
        -- destruct Hr as [[-> ->]|[err ->]]; [by left|right; by eauto].
      * exists (Throws (Rejected reason)), st1, [m], [t].
        split_and!; [done|done|by repeat constructor|by exists ms|right; by eauto].
    + exists (Throws (Raised e)), st, [], []. cbn.
      split_and!; [done|by rewrite app_nil_r|constructor|apply prefix_nil|
                   right; by eauto].
Qed.

(** How the body of the [try] can end, from the start of a run. *)
Lemma attempt_cases :
  ∃ r st told texts, CheckMain.attempt w {| posts := 0; trace := [] |} = (r, st)
    ∧ summaries told texts
    ∧ (told `prefix_of` inventory_matches w)
    ∧ ((r = Returns () ∧ told = inventory_matches w
        ∧ sent (trace st) = Summary <$> texts)
       ∨ (r = Exits 1 ∧ texts = [] ∧ sent (trace st) = [Blocked])
       ∨ (∃ err, r = Throws err ∧ texts = [] ∧ sent (trace st) = [Blocked])
       ∨ (∃ err, r = Throws err ∧ sent (trace st) = Summary <$> texts)).
Proof.
  destruct (referer w) as [reason|set_cookie] eqn:Href.
  { unfold CheckMain.attempt, CheckMain.getTeslaCookies. rewrite Href.
    unfold mbind at 1, M_bind at 1. unfold mbind at 1, M_bind at 1.
    unfold emit at 1, throw. eexists _, _, [], [].
    split_and!; [done|constructor|apply prefix_nil|].
    do 3 right. by exists (Rejected reason). }
  destruct (api w) as [reason|status text json] eqn:Hapi.
  { unfold CheckMain.attempt, CheckMain.getTeslaCookies. rewrite Href, Hapi.
    unfold mbind at 1, M_bind at 1. unfold mbind at 1, M_bind at 1.
    unfold emit at 1, mret, M_ret.
    unfold mbind at 1, M_bind at 1. unfold emit at 1, throw.
    eexists _, _, [], []. split_and!; [done|constructor|apply prefix_nil|].
    do 3 right. by exists (Rejected reason). }
  rewrite (attempt_with_response set_cookie status text json) by done.
  cbv zeta. cbn [posts trace].
  match goal with
  | |- context [(Throws (HttpError status), ?s)] => set (st1 := s)
  end.
  assert (Hst1 : sent (trace st1) = []) by done.
  destruct (status =? 403)%Z.
  { unfold mbind at 1, M_bind at 1.
    destruct (sendTelegram_cases Blocked st1)
      as (r & st' & -> & _ & Hsent & [[-> _]|(reason & -> & _)]).
    - unfold mbind at 1, M_bind at 1. unfold emit at 1, exit.
      eexists _, _, [], []. split_and!; [done|constructor|apply prefix_nil|].
      right. left. split_and!; [done|done|].
      cbn [trace]. rewrite sent_app, Hsent, Hst1. done.
    - eexists _, _, [], []. split_and!; [done|constructor|apply prefix_nil|].
      do 2 right. left.
      exists (Rejected reason). by rewrite Hsent, Hst1. }
  unfold inventory_matches. rewrite Hapi.
  destruct json as [reason|data].
  { destruct ((200 <=? status)%Z && (status <=? 299)%Z); cbn [negb];
      eexists _, _, [], []; (split_and!; [done|constructor|apply prefix_nil|]);
      do 3 right; by eauto. }
  destruct ((200 <=? status)%Z && (status <=? 299)%Z); cbn [negb].
  2:{ eexists _, _, [], []. split_and!; [done|constructor|apply prefix_nil|].
      do 3 right. by exists (HttpError status). }
  destruct (CheckJs.find_matches data) as [[|m ms]|e].
  - eexists _, _, [], []. split_and!; [done|constructor|done|]. by left.
  - destruct (notify_prefix (m :: ms) st1)
      as (r & st' & told & texts & -> & Hsent & Hsum & Hpre & Hr).
    rewrite Hst1 in Hsent. exists r, st', told, texts.
    split_and!; [done|done|done|].
    destruct Hr as [[-> ->]|[err ->]].
    + by left.
    + do 3 right. by exists err.
  - eexists _, _, [], []. split_and!; [done|constructor|apply prefix_nil|].
    do 3 right. by exists (Raised e).
Qed.

(** X17: what a run sends is the summaries of the matches of the inventory,
    in their order and each made by [summarize] of its match, of all the
    matches when the exit code is 0 and of the first ones otherwise, and
    then at most one closing message: the report of a failure, or the
    warning of a blocked request, possibly followed by the report that
    sending it failed.  After a report or a warning nothing more is sent, and
    whenever one is sent the exit code is 1.  The exit code is never another
    than 0 or 1, and no exception escapes the main function. *)
Theorem messages_of_a_run :
  (exit_code (CheckMain.run w) = 0%Z ∨ exit_code (CheckMain.run w) = 1%Z)
  ∧ (∀ err, (CheckMain.run w).1 ≠ Throws err)
  ∧ ∃ told texts closing,
      sent (trace (CheckMain.run w).2) = (Summary <$> texts) ++ closing
      ∧ summaries told texts
      ∧ (told `prefix_of` inventory_matches w)
      ∧ (exit_code (CheckMain.run w) = 0%Z →
         told = inventory_matches w ∧ closing = [])
      ∧ (closing = []
         ∨ (exit_code (CheckMain.run w) = 1%Z
            ∧ ((texts = [] ∧ closing = [Blocked])
               ∨ (texts = [] ∧ ∃ err, closing = [Blocked; CheckerFailed err])
               ∨ ∃ err, closing = [CheckerFailed err]))).
Proof.
  unfold CheckMain.run.
  destruct (negb (truthy (TELEGRAM_TOKEN w)) || negb (truthy (TELEGRAM_CHAT_ID w))).
  { split_and!; [by right|done|]. exists [], [], [].
    split_and!; [done|constructor|apply prefix_nil|done|by left]. }
  unfold CheckMain.main, try_catch.
  destruct attempt_cases as (r & st & told & texts & -> & Hsum & Hpre & Hcases).
  destruct Hcases as [(-> & -> & Hsent)|[(-> & -> & Hsent)|
    [(err & -> & -> & Hsent)|(err & -> & Hsent)]]].
  - split_and!; [by left|done|]. exists (inventory_matches w), texts, [].
    cbn [snd]. rewrite Hsent, app_nil_r.
    split_and!; [done|done|done|done|by left].
  - split_and!; [by right|done|]. exists told, [], [Blocked]. cbn [snd].
    rewrite Hsent. split_and!; [done|done|done|done|].
    right. split; [done|by left].
  - destruct (report_exits err st) as (st' & -> & _ & Hsent').
    split_and!; [by right|done|]. exists told, [], [Blocked; CheckerFailed err].
    cbn [snd]. rewrite Hsent', Hsent. split_and!; [done|done|done|done|].
    right. split; [done|]. right. left. by eauto.
  - destruct (report_exits err st) as (st' & -> & _ & Hsent').
    split_and!; [by right|done|]. exists told, texts, [CheckerFailed err].
    cbn [snd]. rewrite Hsent', Hsent. split_and!; [done|done|done|done|].
    right. split; [done|]. right. right. by eauto.
Qed.

Lemma report_run (err : error) (st : state) :
  CheckMain.report w err st =
    (Exits 1,
     {| posts := S (posts st);
        trace := trace st ++ ErrorChecker err :: SendTelegram (CheckerFailed err)
                 :: complaint w (posts st) |}).
Proof.
  unfold CheckMain.report, complaint.
  unfold mbind at 1, M_bind at 1. unfold emit at 1.
  unfold mbind at 1, M_bind at 1. unfold try_catch, CheckMain.sendTelegram.
  cbn [posts trace].
  destruct (telegram w (posts st)) as [|body|reason]; unfold emit, exit, mret, M_ret;
    cbn [posts trace]; rewrite <- ?app_assoc; done.
Qed.

(** X18: without a token or a chat in the environment nothing is requested
    and nothing is sent; when the request for the referer page is rejected
    the inventory is not requested, and when the request for the inventory is
    rejected no body is read: each time the run is the complaint on the
    console, one report of the failure and exit code 1, also when the report
    itself is rejected. *)
Theorem failure_before_the_inventory :
  (¬ configured w →
     CheckMain.run w = (Exits 1, {| posts := 0; trace := [ErrorMissingEnv] |}))
  ∧ (∀ reason, configured w → referer w = RefererFails reason →
       CheckMain.run w =
         (Exits 1,
          {| posts := 1;
             trace := [FetchReferer; ErrorChecker (Rejected reason);
                       SendTelegram (CheckerFailed (Rejected reason))]
                      ++ complaint w 0 |}))
  ∧ (∀ set_cookie reason, configured w →
       referer w = RefererHeaders set_cookie → api w = ApiFails reason →
       CheckMain.run w =
         (Exits 1,
          {| posts := 1;
             trace := [FetchReferer; FetchApi (cookie_sent set_cookie);
                       ErrorChecker (Rejected reason);
                       SendTelegram (CheckerFailed (Rejected reason))]
                      ++ complaint w 0 |})).
Proof.
  unfold configured, CheckMain.run. split_and!.
  - intros Hnot.
    destruct (truthy (TELEGRAM_TOKEN w)), (truthy (TELEGRAM_CHAT_ID w));
      try done.
    by destruct Hnot.
  - intros reason [-> ->] Href. cbn [negb orb].
    unfold CheckMain.main, try_catch, CheckMain.attempt, CheckMain.getTeslaCookies.
    rewrite Href.
    unfold mbind at 1, M_bind at 1. unfold mbind at 1, M_bind at 1.
    unfold emit at 1, throw. cbn [posts trace]. by rewrite report_run.
  - intros set_cookie reason [-> ->] Href Hapi. cbn [negb orb].
    unfold CheckMain.main, try_catch, CheckMain.attempt, CheckMain.getTeslaCookies.
    rewrite Href, Hapi.
    unfold mbind at 1, M_bind at 1. unfold mbind at 1, M_bind at 1.
    unfold emit at 1, mret, M_ret.
    unfold mbind at 1, M_bind at 1. unfold emit at 1, throw.
    cbn [posts trace]. by rewrite report_run.
Qed.

(** X19: on the status 403 the body is neither parsed nor filtered: the
    warning of a blocked request is sent, at most the first 400 code units of the
    body go to the console, and the exit code is 1.  When the warning itself is
    rejected the run ends through the report of that failure instead. *)
Theorem blocked_run (set_cookie : option (list jsstring))
    (text : option jsstring) (json : jsstring + value) :
  configured w →
  referer w = RefererHeaders set_cookie →
  api w = ApiStatus 403 text json →
  ((∀ reason, telegram w 0 ≠ SendFails reason) →
     CheckMain.run w =
       (Exits 1,
        {| posts := 1;
           trace := [FetchReferer; FetchApi (cookie_sent set_cookie);
                     SendTelegram Blocked]
                    ++ complaint w 0
                    ++ [ErrorBlocked (take 400 (default [] text))] |})
     ∧ length (take 400 (default [] text)) ≤ 400)
  ∧ (∀ reason, telegram w 0 = SendFails reason →
       CheckMain.run w =
         (Exits 1,
          {| posts := 2;
             trace := [FetchReferer; FetchApi (cookie_sent set_cookie);
                       SendTelegram Blocked; ErrorChecker (Rejected reason);
                       SendTelegram (CheckerFailed (Rejected reason))]
                      ++ complaint w 1 |})).
Proof.
  intros [Htoken Hchat] Href Hapi.
  unfold CheckMain.run. rewrite Htoken, Hchat. cbn [negb orb].
  unfold CheckMain.main, try_catch.
  rewrite (attempt_with_response set_cookie 403 text json) by done.
  cbv zeta. cbn [Z.eqb Pos.eqb posts trace app].
  split.
  - intros Hanswer. split; [|rewrite length_take; lia].
    unfold mbind at 1, M_bind at 1.
    rewrite sendTelegram_answered by done. cbn [posts trace].
    unfold mbind at 1, M_bind at 1. unfold emit at 1, exit. cbn [posts trace].
    unfold complaint. by rewrite <- !app_assoc.
  - intros reason Hpost. unfold mbind at 1, M_bind at 1.
    unfold CheckMain.sendTelegram at 1. cbn [posts trace].
    rewrite Hpost. by rewrite report_run.
Qed.

Lemma notify_rejected (i : nat) (ms : list CheckJs.Match)
    (texts : list jsstring) (st : state) (reason : jsstring) :
  i < length ms →
  summaries (take (S i) ms) texts →
  (∀ j, j < i → ∀ r, telegram w (posts st + j) ≠ SendFails r) →
  telegram w (posts st + i) = SendFails reason →
  ∃ st', CheckMain.notify w ms st = (Throws (Rejected reason), st')
    ∧ posts st' = posts st + S i
    ∧ sent (trace st') = sent (trace st) ++ (Summary <$> texts).
Proof.
  revert ms texts st.
  induction i as [|i IH]; intros [|m ms] texts st Hi Hsum Hbefore Hpost;
    try (simpl in Hi; lia).
  - inversion Hsum as [|? t ? ? Hm Hrest]; subst. inversion Hrest; subst.
    cbn [CheckMain.notify]. rewrite Hm. unfold mbind at 1, M_bind at 1.
    unfold CheckMain.sendTelegram at 1. rewrite Nat.add_0_r in Hpost.
    rewrite Hpost. eexists. split; [done|]. cbn [posts trace].
    split; [lia|]. by rewrite sent_app.
  - inversion Hsum as [|? t ? texts' Hm Hrest]; subst.
    cbn [CheckMain.notify]. rewrite Hm. unfold mbind at 1, M_bind at 1.
    rewrite sendTelegram_answered; last first.
    { intros r. specialize (Hbefore 0 ltac:(lia) r).
      by rewrite Nat.add_0_r in Hbefore. }
    unfold mbind at 1, M_bind at 1. unfold emit at 1. cbn [posts trace].
    edestruct (IH ms texts') as (st' & -> & Hposts & Hsent).
    + simpl in Hi. lia.
    + exact Hrest.
    + cbn [posts]. intros j Hj r. specialize (Hbefore (S j) ltac:(lia) r).
      by rewrite Nat.add_succ_r in Hbefore.
    + cbn [posts]. by rewrite Nat.add_succ_r in Hpost.
    + exists st'. split; [done|]. cbn [posts trace] in Hposts, Hsent.
      split; [lia|]. rewrite Hsent, !sent_app. cbn [fmap list_fmap].
      rewrite <- !app_assoc. f_equal.
      change (SendTelegram (Summary t) :: ?l) with ([SendTelegram (Summary t)] ++ l).
      rewrite !sent_app. cbn. by destruct (telegram w (posts st)).
Qed.

(** X20: a message that is rejected, not merely refused, ends the loop: the
    matches after it are not notified.  What is sent is the summaries up to
    and including that message, then the report of the failure, and the exit
    code is 1. *)
Theorem rejected_message_stops_the_loop (set_cookie : option (list jsstring))
    (status : Z) (text : option jsstring) (data : value)
    (ms : list CheckJs.Match) (i : nat) (texts : list jsstring)
    (reason : jsstring) :
  configured w →
  referer w = RefererHeaders set_cookie →
  api w = ApiStatus status text (inr data) →
  (200 <= status <= 299)%Z →
  CheckJs.find_matches data = Ok ms →
  i < length ms →
  summaries (take (S i) ms) texts →
  none_rejected w i →
  telegram w i = SendFails reason →
  exit_code (CheckMain.run w) = 1%Z
  ∧ length texts = S i
  ∧ sent (trace (CheckMain.run w).2)
    = (Summary <$> texts) ++ [CheckerFailed (Rejected reason)].
Proof.
  intros [Htoken Hchat] Href Hapi Hstatus Hfind Hi Hsum Hnone Hpost.
  assert (Hlen : length texts = S i).
  { apply Forall2_length in Hsum. rewrite length_take in Hsum. lia. }
  unfold CheckMain.run. rewrite Htoken, Hchat. cbn [negb orb].
  unfold CheckMain.main, try_catch.
  rewrite (attempt_with_response set_cookie status text (inr data)) by done.
  cbv zeta. cbn [posts trace app].
  destruct (Z.eqb_spec status 403) as [->|_]; [lia|].
  replace ((200 <=? status)%Z && (status <=? 299)%Z) with true
    by (symmetry; apply andb_true_iff; split; apply Z.leb_le; lia).
  cbn [negb]. rewrite Hfind.
  destruct ms as [|m ms]; [simpl in Hi; lia|].
  edestruct (notify_rejected i (m :: ms) texts) as (st' & -> & _ & Hsent);
    [done|done| | |].
  - cbn [posts]. intros j Hj r. by apply Hnone.
  - cbn [posts]. exact Hpost.
  - rewrite report_run. split_and!; [done|done|].
    cbn [snd trace]. rewrite sent_app, Hsent. cbn [trace].
    change (ErrorChecker ?e :: SendTelegram ?m' :: ?l)
      with ([ErrorChecker e; SendTelegram m'] ++ l).
    rewrite sent_app. cbn. unfold complaint.
    destruct (telegram w (posts st')); cbn; by rewrite ?app_nil_r.
Qed.

Lemma part000_report_run (err : error) (st : state) :
  Part000Main.report w err st =
    (Exits 1,
     {| posts := S (posts st);
        trace := trace st ++ [ErrorChecker err; SendTelegram (CheckerFailed err)] |}).
Proof.
  unfold Part000Main.report.
  unfold mbind at 1, M_bind at 1. unfold emit at 1.
  unfold mbind at 1, M_bind at 1. unfold try_catch, Part000Main.sendTelegram.
  cbn [posts trace].
  destruct (telegram w (posts st)) as [|body|reason]; unfold exit, mret, M_ret;
    cbn [posts trace]; rewrite <- ?app_assoc; done.
Qed.

(** X21: a status that is no success is thrown as an error before the body
    is parsed: the run is one report that names the status, and exit code 1.
    The earlier variant does so for every such status, 403 included;
    src/check.js for every such status but 403. *)
Theorem status_failure (status : Z) (text : option jsstring)
    (json : jsstring + value) :
  configured w →
  api w = ApiStatus status text json →
  ¬ (200 <= status <= 299)%Z →
  Part000Main.run w =
    (Exits 1,
     {| posts := 1;
        trace := [FetchApi None; ErrorChecker (HttpError status);
                  SendTelegram (CheckerFailed (HttpError status))] |})
  ∧ (∀ set_cookie, referer w = RefererHeaders set_cookie → status ≠ 403%Z →
       CheckMain.run w =
         (Exits 1,
          {| posts := 1;
             trace := [FetchReferer; FetchApi (cookie_sent set_cookie);
                       ErrorChecker (HttpError status);
                       SendTelegram (CheckerFailed (HttpError status))]
                      ++ complaint w 0 |})).
Proof.
  intros [Htoken Hchat] Hapi Hstatus.
  assert (Hok : (200 <=? status)%Z && (status <=? 299)%Z = false).
  { apply andb_false_iff.
    destruct (Z.leb_spec 200 status); [|by left].
    destruct (Z.leb_spec status 299); [lia|by right]. }
  split.
  - unfold Part000Main.run. rewrite Htoken, Hchat. cbn [negb orb].
    unfold Part000Main.main, try_catch, Part000Main.attempt. rewrite Hapi, Hok.
    cbn [negb]. unfold mbind at 1, M_bind at 1. unfold emit at 1, throw.
    cbn [posts trace]. by rewrite part000_report_run.
  - intros set_cookie Href Hne.
    unfold CheckMain.run. rewrite Htoken, Hchat. cbn [negb orb].
    unfold CheckMain.main, try_catch.
    rewrite (attempt_with_response set_cookie status text json) by done.
    cbv zeta. cbn [posts trace app].
    destruct (Z.eqb_spec status 403) as [->|_]; [done|].
    rewrite Hok. cbn [negb]. by rewrite report_run.
Qed.

End MainFunction.

Section EarlierMainFunction.
Context `{Runtime}.
Variable w : world.

Lemma part000_sendTelegram_cases (msg : message) (st : state) :
  msg ≠ Blocked →
  Forall (fun e => part000_event e = true) (trace st) →
  ∃ r st', Part000Main.sendTelegram w msg st = (r, st')
    ∧ Forall (fun e => part000_event e = true) (trace st')
    ∧ sent (trace st') = sent (trace st) ++ [msg]
    ∧ (r = Returns () ∨ ∃ err, r = Throws err).
Proof.
  intros Hmsg Hquiet. unfold Part000Main.sendTelegram.
  assert (Hquiet' : Forall (fun e => part000_event e = true)
                      (trace st ++ [SendTelegram msg])).
  { apply Forall_app. split; [done|]. constructor; [|done]. by destruct msg. }
  destruct (telegram w (posts st)) as [|body|reason];
    eexists _, _; (split; [done|]); cbn [trace];
    (split_and!; [done|by rewrite sent_app|by eauto]).
Qed.

Lemma part000_notify_cases (ms : list Part000.Match) (st : state) :
  Forall (fun e => part000_event e = true) (trace st) →
  ∃ r st' told texts, Part000Main.notify w ms st = (r, st')
    ∧ Forall (fun e => part000_event e = true) (trace st')
    ∧ sent (trace st') = sent (trace st) ++ (Summary <$> texts)
    ∧ part000_summaries told texts
    ∧ (told `prefix_of` ms)
    ∧ ((r = Returns () ∧ told = ms) ∨ ∃ err, r = Throws err).
Proof.
  revert st. induction ms as [|m ms IH]; intros st Hquiet.
  - exists (Returns ()), st, [], []. cbn.
    split_and!; [done|done|by rewrite app_nil_r|constructor|done|by left].
  - cbn [Part000Main.notify].
    destruct (Part000.summarize _ _ _) as [t|e] eqn:Hm.
    + unfold mbind at 1, M_bind at 1.
      destruct (part000_sendTelegram_cases (Summary t) st)
        as (r & st1 & -> & Hquiet1 & Hsent & [->|[err ->]]); [done|done| |].
      * unfold mbind at 1, M_bind at 1. unfold emit at 1.
        edestruct (IH {| posts := posts st1; trace := trace st1 ++ [Sleep 400] |})
          as (r & st' & told & texts & -> & Hquiet' & Hsent' & Hsum & Hpre & Hr).
        { cbn [trace]. apply Forall_app. split; [done|]. by constructor. }
        exists r, st', (m :: told), (t :: texts).
        split_and!; [done|done| |by constructor|by apply prefix_cons|].
        -- rewrite Hsent'. cbn [trace]. rewrite sent_app, Hsent. cbn.
           by rewrite app_nil_r, <- app_assoc.
        -- destruct Hr as [[-> ->]|[err ->]]; [by left|right; by eauto].
      * exists (Throws err), st1, [m], [t].
        split_and!; [done|done|done|by repeat constructor|by exists ms|by eauto].
    + exists (Throws (Raised e)), st, [], []. cbn.
      split_and!; [done|done|by rewrite app_nil_r|constructor|apply prefix_nil|
                   by eauto].
Qed.

Lemma part000_attempt_cases :
  ∃ r st told texts, Part000Main.attempt w {| posts := 0; trace := [] |} = (r, st)
    ∧ Forall (fun e => part000_event e = true) (trace st)
    ∧ sent (trace st) = Summary <$> texts
    ∧ part000_summaries told texts
    ∧ (told `prefix_of` part000_inventory_matches w)
    ∧ ((r = Returns () ∧ told = part000_inventory_matches w)
       ∨ ∃ err, r = Throws err).
Proof.
  unfold Part000Main.attempt. unfold mbind at 1, M_bind at 1. unfold emit at 1.
  cbn [posts trace app]. unfold part000_inventory_matches.
  assert (Hquiet : Forall (fun e => part000_event e = true) [FetchApi None])
    by by constructor.
  destruct (api w) as [reason|status text json].
  { eexists _, _, [], []. split; [done|].
    split_and!; [done|done|constructor|done|by eauto]. }
  destruct json as [reason|data].
  { destruct ((200 <=? status)%Z && (status <=? 299)%Z); cbn [negb];
      eexists _, _, [], []; (split; [done|]);
      (split_and!; [done|done|constructor|apply prefix_nil|by eauto]). }
  destruct ((200 <=? status)%Z && (status <=? 299)%Z); cbn [negb].
  2:{ eexists _, _, [], []. split; [done|].
      split_and!; [done|done|constructor|apply prefix_nil|by eauto]. }
  destruct (Part000.find_matches data) as [[|m ms]|e].
  - eexists _, _, [], []. unfold emit. split; [done|]. cbn [trace].
    split_and!; [by repeat constructor|done|constructor|done|by left].
  - destruct (part000_notify_cases (m :: ms)
                {| posts := 0; trace := [FetchApi None] |})
      as (r & st' & told & texts & -> & Hquiet' & Hsent & Hsum & Hpre & Hr); [done|].
    by exists r, st', told, texts.
  - eexists _, _, [], []. split; [done|].
    split_and!; [done|done|constructor|apply prefix_nil|by eauto].
Qed.

(** X22: the earlier variant never asks for the referer page, never sends
    a cookie, never warns of a blocked request and never complains about a
    refused message.  What it sends is the summaries of the matches of the
    inventory, in their order and each made by its [summarize] of its match,
    of all the matches when the exit code is 0 and of the first ones
    otherwise, and then at most one report of a failure, with which the exit
    code is 1; the exit code is 0 or 1. *)
Theorem part000_messages_of_a_run :
  (exit_code (Part000Main.run w) = 0%Z ∨ exit_code (Part000Main.run w) = 1%Z)
  ∧ Forall (fun e => part000_event e = true) (trace (Part000Main.run w).2)
  ∧ ∃ told texts closing,
      sent (trace (Part000Main.run w).2) = (Summary <$> texts) ++ closing
      ∧ part000_summaries told texts
      ∧ (told `prefix_of` part000_inventory_matches w)
      ∧ (exit_code (Part000Main.run w) = 0%Z →
         told = part000_inventory_matches w ∧ closing = [])
      ∧ (closing = []
         ∨ (exit_code (Part000Main.run w) = 1%Z
            ∧ ∃ err, closing = [CheckerFailed err])).
Proof.
  unfold Part000Main.run.
  destruct (negb (truthy (TELEGRAM_TOKEN w)) || negb (truthy (TELEGRAM_CHAT_ID w))).
  { split_and!; [by right|by repeat constructor|].
    exists [], [], [].
    split_and!; [done|constructor|apply prefix_nil|done|by left]. }
  unfold Part000Main.main, try_catch.
  destruct part000_attempt_cases
    as (r & st & told & texts & -> & Hquiet & Hsent & Hsum & Hpre & Hr).
  destruct Hr as [[-> ->]|[err ->]].
  - split_and!; [by left|done|].
    exists (part000_inventory_matches w), texts, []. cbn [snd].
    rewrite Hsent, app_nil_r. split_and!; [done|done|done|done|by left].
  - rewrite part000_report_run. split_and!; [by right| |].
    + cbn [snd trace]. apply Forall_app. split; [done|]. by repeat constructor.
    + exists told, texts, [CheckerFailed err]. cbn [snd trace].
      rewrite sent_app, Hsent. split_and!; [done|done|done|done|].
      right. by eauto.
Qed.

End EarlierMainFunction.

(** ** The further properties at concrete records and worlds *)

Section FurtherExamples.
Import Reference.

(** X2 at a record with a colour. *)
Lemma extraction_ignores_witness :
  CheckJs.extractPrice (obj [("Colour", str "rot"); ("Price", VNum (num 25000))])
  = CheckJs.extractPrice (obj [("Price", VNum (num 25000))]).
Proof.
  apply (extraction_ignores_other_fields _ (js "Colour") (str "rot")).
  apply (bool_decide_unpack (js "Colour" ∉ extraction_fields)). by vm_compute.
Defined.

(** X3 at the entry [null]. *)
Lemma non_object_witness : CheckJs.filter_item VNull = Ok None.
Proof.
  destruct (non_object_entry_is_skipped VNull) as (_ & _ & Hfilter & _);
    [done|done|exact Hfilter].
Defined.

(** X4 at a text with a minus sign. *)
Lemma ignores_sign_witness :
  CheckJs.numberFrom (str "-500") = CheckJs.numberFrom (str "500").
Proof.
  apply (numberFrom_ignores_extraneous [] (js "500") 45). by vm_compute.
Defined.

(** X5 at the same text. *)
Lemma not_negative_witness : signbit (num 500) = false.
Proof. apply (numberFrom_text_not_negative (js "-500")). by vm_compute. Defined.

(** X6 at the record that matches by its label. *)
Lemma by_estimate_witness :
  CheckJs.filter_item by_estimate
  = Ok (Some {| CheckJs.item := by_estimate; CheckJs.price := num 28500;
                CheckJs.rangeKm := num 620 |}).
Proof.
  apply (match_by_estimate_is_long_range by_estimate).
  - repeat constructor.
  - exists (num 28500), (js "Long Range AWD"). by vm_compute.
Defined.

(** X7 at the record priced 25000 with range 650. *)
Lemma part000_match_witness :
  CheckJs.filter_item listing
  = Ok (Some {| CheckJs.item := listing; CheckJs.price := num 25000;
                CheckJs.rangeKm := num 650 |}).
Proof.
  apply (part000_match_is_match listing
           {| Part000.item := listing; Part000.price := num 25000;
              Part000.rangeKm := num 650 |}).
  by vm_compute.
Defined.

(** X8 at the inventory of three records: two matches, in order. *)
Lemma matches_follow_witness :
  sublist [listing; by_estimate] [listing; by_estimate; too_dear].
Proof.
  destruct (matches_follow_results inventory [listing; by_estimate; too_dear]
              [ {| CheckJs.item := listing; CheckJs.price := num 25000;
                   CheckJs.rangeKm := num 650 |};
                {| CheckJs.item := by_estimate; CheckJs.price := num 28500;
                   CheckJs.rangeKm := num 620 |} ])
    as (_ & Hsub & _); [by vm_compute..|exact Hsub].
Defined.

(** X9 at results whose second record has the label 3. *)
Lemma bad_label_witness :
  CheckJs.find_matches
    (obj [("results", VArr [listing; obj [("TrimName", VNum (num 3))]])])
  = Throw TypeError.
Proof.
  apply (one_bad_label_fails_the_run _
           [listing; obj [("TrimName", VNum (num 3))]]
           (obj [("TrimName", VNum (num 3))])).
  - by vm_compute.
  - set_solver.
  - repeat constructor.
  - intros label. by vm_compute.
Defined.

(** X10 at the record with a relative link. *)
Lemma itemUrl_absolute_witness :
  ∃ s, ToString (str "https://www.tesla.com/de_DE/m3/order/5YJ3E7EB") = Ok s
       ∧ starts_with_http s = true.
Proof.
  apply (itemUrl_is_absolute relative_link
           (str "https://www.tesla.com/de_DE/m3/order/5YJ3E7EB")).
  by vm_compute.
Defined.

(** X11 at the record with a VIN. *)
Lemma itemUrl_vin_witness :
  CheckJs.itemUrl by_estimate
  = Ok (VStr (CheckJs.REFERER_URL ++ js "#" ++ js "5YJ3E7EB1KF000001")).
Proof.
  apply (itemUrl_vin_fragment by_estimate (js "5YJ3E7EB1KF000001"));
    by vm_compute.
Defined.

(** X13 at the same record. *)
Lemma summarize_plain_witness :
  ∃ title url link,
    CheckJs.line1 by_estimate = Ok title
    ∧ CheckJs.itemUrl by_estimate = Ok url
    ∧ ToString url = Ok link
    ∧ CheckJs.summarize by_estimate (num 28500) (num 620)
      = Ok (title ++ [10%N] ++ CheckJs.line2 by_estimate (num 28500) (num 620)
            ++ [10%N] ++ link).
Proof.
  apply (summarize_of_plain_record _ (num 28500) (num 620)).
  simpl. repeat (apply map_Forall_insert_2; [done|]). apply map_Forall_empty.
Defined.



(** X16 at the same world. *)
Lemma exit_code_zero_witness : configured world_ok.
Proof.
  apply (exit_code_zero world_ok). by vm_compute.
Defined.

(** X19 at the world whose inventory answers 403. *)
Lemma blocked_run_witness :
  sent (trace (CheckMain.run world_blocked).2) = [Blocked]
  ∧ exit_code (CheckMain.run world_blocked) = 1%Z.
Proof.
  destruct (blocked_run world_blocked (Some set_cookie_lines)
              (Some (js "Access Denied")) (inl (js "SyntaxError")))
    as [Hanswered _]; [by split|reflexivity|reflexivity|].
  destruct Hanswered as [Hrun _]; [by intros reason|].
  rewrite Hrun. by vm_compute.
Defined.

(** X20 at the world whose server rejects the first message: the second
    match is not notified. *)
Lemma rejected_message_witness :
  exit_code (CheckMain.run world_rejecting) = 1%Z
  ∧ length (sent (trace (CheckMain.run world_rejecting).2)) = 2.
Proof.
  edestruct (rejected_message_stops_the_loop world_rejecting
               (Some set_cookie_lines) 200 None inventory two_matches 0)
    as (Hcode & _ & Hsent).
  - by split.
  - reflexivity.
  - reflexivity.
  - lia.
  - by vm_compute.
  - simpl. lia.
  - repeat econstructor; by vm_compute.
  - intros i Hi. lia.
  - reflexivity.
  - split; [exact Hcode|]. rewrite Hsent. reflexivity.
Defined.

(** X21 at the world whose inventory answers 503. *)
Lemma status_failure_witness :
  exit_code (Part000Main.run world_unavailable) = 1%Z
  ∧ exit_code (CheckMain.run world_unavailable) = 1%Z.
Proof.
  destruct (status_failure world_unavailable 503 None (inl (js "SyntaxError")))
    as [Hpart Hcheck]; [by split|reflexivity|lia|].
  rewrite Hpart, (Hcheck (Some set_cookie_lines)) by done. done.
Defined.

End FurtherExamples.
